(** * Gaia catalogue service: kinematic derivation and population selection

    A shallow embedding of [src/core/gaia_service.py] (class [GaiaService]).

    - Table cells are IEEE binary64 numbers ([PrimFloat.float]); a missing
      value is NaN, as in a pandas float column.  The [source_id] column is
      an integer column.
    - [pd.DataFrame] and [QueryResult] are mutable Python objects.  Each
      kind lives in a store (a list indexed by address) so that aliasing
      between the caller's table, the returned table and the cached last
      result is visible.
    - Methods run in a state-and-exception monad over that store.
    - The Gaia archive ([astroquery]), the Galactocentric frame transform
      ([astropy]), Python's float formatting and Python's [str.lower] are
      collaborators outside the repository; they are fields of an
      environment record. *)

From Stdlib Require Import Floats ZArith DecimalString Ascii String Bool Lia.
From stdpp Require Import base option list strings.

Open Scope string_scope.

(** ** Numbers *)

Definition nan : float := PrimFloat.nan.

(** int64 to float64, as numpy converts an integer column that takes part in
    float arithmetic (round to nearest). *)
Definition int64_to_float (z : Z) : float :=
  if (z =? - 2 ^ 63)%Z then Z.ldexp (-1)%float 63
  else if (z <? 0)%Z then PrimFloat.opp (PrimFloat.of_uint63 (Uint63.of_Z (- z)))
  else PrimFloat.of_uint63 (Uint63.of_Z z).

(** [str(n)] for a Python int. *)
Definition str_int (z : Z) : string := NilZero.string_of_int (Z.to_int z).

(** ** Tables *)

Inductive column : Type :=
| IntCol (xs : list Z)
| FloatCol (xs : list float).

Inductive cell : Type :=
| Int (z : Z)
| Float (x : float).

Definition cells (c : column) : list cell :=
  match c with
  | IntCol xs => Int <$> xs
  | FloatCol xs => Float <$> xs
  end.

(** [series.values] used as a float64 array. *)
Definition values (c : column) : list float :=
  match c with
  | IntCol xs => int64_to_float <$> xs
  | FloatCol xs => xs
  end.

(** A frame: the length of its index and its columns in order.  pandas keeps
    every column exactly as long as the index. *)
Record DataFrame : Type := {
  nrows : nat;
  columns : list (string * column)
}.

Global Instance DataFrame_inhabited : Inhabited DataFrame :=
  populate {| nrows := 0; columns := [] |}.

Fixpoint col_lookup (name : string) (cs : list (string * column)) : option column :=
  match cs with
  | [] => None
  | (k, c) :: rest => if String.eqb k name then Some c else col_lookup name rest
  end.

(** Assigning a column: an existing name keeps its position, a new name goes
    last. *)
Fixpoint col_assign (name : string) (c : column) (cs : list (string * column))
  : list (string * column) :=
  match cs with
  | [] => [(name, c)]
  | (k, c0) :: rest =>
      if String.eqb k name then (k, c) :: rest
      else (k, c0) :: col_assign name c rest
  end.

Definition assign (name : string) (c : column) (d : DataFrame) : DataFrame :=
  {| nrows := nrows d; columns := col_assign name c (columns d) |}.

(** Rows kept by a boolean mask. *)
Fixpoint keep {A : Type} (mask : list bool) (xs : list A) : list A :=
  match mask, xs with
  | b :: mask', x :: xs' => if b then x :: keep mask' xs' else keep mask' xs'
  | _, _ => []
  end.

Definition col_keep (mask : list bool) (c : column) : column :=
  match c with
  | IntCol xs => IntCol (keep mask xs)
  | FloatCol xs => FloatCol (keep mask xs)
  end.

Definition col_take (n : nat) (c : column) : column :=
  match c with
  | IntCol xs => IntCol (take n xs)
  | FloatCol xs => FloatCol (take n xs)
  end.

(** [df[mask].reset_index(drop=True)]: a new frame holding the rows where the
    mask is true. *)
Definition select (mask : list bool) (d : DataFrame) : DataFrame :=
  {| nrows := length (keep mask (replicate (nrows d) tt));
     columns := prod_map id (col_keep mask) <$> columns d |}.

(** Number of rows [df.head(n)] keeps: the first [n] for [n >= 0], all but
    the last [-n] for [n < 0]. *)
Definition head_count (n : Z) (len : nat) : nat :=
  if (0 <=? n)%Z then Nat.min (Z.to_nat n) len else len - Z.to_nat (- n).

Definition head (n : Z) (d : DataFrame) : DataFrame :=
  {| nrows := head_count n (nrows d);
     columns := prod_map id (col_take (head_count n (nrows d))) <$> columns d |}.

(** The [source_id] cells of a frame, in row order. *)
Definition source_ids (d : DataFrame) : list cell :=
  from_option cells [] (col_lookup "source_id" (columns d)).

(** ** Exceptions, objects and the store *)

Inductive exn : Type :=
| KeyError (key : string)
| ValueError (msg : string)
| ZeroDivisionError (msg : string)
| RuntimeError (msg : string)
| LibraryError (msg : string).

(** [str(e)] *)
Definition str_exn (e : exn) : string :=
  match e with
  | KeyError key => "'" +:+ key +:+ "'"
  | ValueError msg | ZeroDivisionError msg | RuntimeError msg | LibraryError msg => msg
  end.

(** Objects are named by their position in the store. *)
Abbreviation addr := nat.

Record QueryResult : Type := {
  data : addr;
  query : string;
  row_count : nat;
  description : string
}.

Global Instance QueryResult_inhabited : Inhabited QueryResult :=
  populate {| data := 0; query := ""; row_count := 0; description := "" |}.

Record World : Type := {
  frames : list DataFrame;
  results : list QueryResult;
  _last_result : option addr;
  launched : list string;
  stdout : list string
}.

Definition with_frames (fs : list DataFrame) (w : World) : World :=
  {| frames := fs; results := results w; _last_result := _last_result w;
     launched := launched w; stdout := stdout w |}.

Definition with_results (rs : list QueryResult) (w : World) : World :=
  {| frames := frames w; results := rs; _last_result := _last_result w;
     launched := launched w; stdout := stdout w |}.

Definition with_last_result (r : option addr) (w : World) : World :=
  {| frames := frames w; results := results w; _last_result := r;
     launched := launched w; stdout := stdout w |}.

Definition with_launched (qs : list string) (w : World) : World :=
  {| frames := frames w; results := results w; _last_result := _last_result w;
     launched := qs; stdout := stdout w |}.

Definition with_stdout (out : list string) (w : World) : World :=
  {| frames := frames w; results := results w; _last_result := _last_result w;
     launched := launched w; stdout := out |}.

Inductive outcome (A : Type) : Type :=
| Ok (a : A)
| Raise (e : exn).
Arguments Ok {A} a.
Arguments Raise {A} e.

Definition M (A : Type) : Type := World -> outcome A * World.

Definition ret {A} (a : A) : M A := fun w => (Ok a, w).
Definition raise {A} (e : exn) : M A := fun w => (Raise e, w).
Definition bind {A B} (m : M A) (k : A -> M B) : M B :=
  fun w => match m w with
           | (Ok a, w') => k a w'
           | (Raise e, w') => (Raise e, w')
           end.

(** [try: m except Exception as e: h e] *)
Definition try_except {A} (m : M A) (h : exn -> M A) : M A :=
  fun w => match m w with
           | (Ok a, w') => (Ok a, w')
           | (Raise e, w') => h e w'
           end.

Declare Scope py_scope.
Delimit Scope py_scope with py.
Notation "x <- m ;; k" := (bind m (fun x => k))
  (at level 100, m at next level, right associativity) : py_scope.
Notation "m ;;; k" := (bind m (fun _ => k))
  (at level 100, right associativity) : py_scope.
Open Scope py_scope.

(** *** Frame objects *)

Definition new_frame (d : DataFrame) : M addr :=
  fun w => (Ok (length (frames w)), with_frames (frames w ++ [d]) w).

Definition read_frame (a : addr) : M DataFrame :=
  fun w => (Ok (frames w !!! a), w).

Definition write_frame (a : addr) (d : DataFrame) : M unit :=
  fun w => (Ok tt, with_frames (<[a := d]> (frames w)) w).

(** [len(df)] *)
Definition len (a : addr) : M nat :=
  d <- read_frame a ;; ret (nrows d).

(** [df[name]] *)
Definition getitem (a : addr) (name : string) : M column :=
  d <- read_frame a ;;
  match col_lookup name (columns d) with
  | Some c => ret c
  | None => raise (KeyError name)
  end.

(** [df[name] = values]: pandas refuses an array whose length is not the
    length of the index; a series taken from the same frame always fits. *)
Definition setitem (a : addr) (name : string) (xs : list float) : M unit :=
  d <- read_frame a ;;
  if Nat.eqb (length xs) (nrows d)
  then write_frame a (assign name (FloatCol xs) d)
  else raise (ValueError "Length of values does not match length of index").

(** [df[name] = x] for a scalar [x], broadcast over the index. *)
Definition setitem_scalar (a : addr) (name : string) (x : float) : M unit :=
  d <- read_frame a ;;
  write_frame a (assign name (FloatCol (replicate (nrows d) x)) d).

(** [df.copy()] *)
Definition copy (a : addr) : M addr :=
  d <- read_frame a ;; new_frame d.

(** *** Result objects *)

Definition new_result (r : QueryResult) : M addr :=
  fun w => (Ok (length (results w)), with_results (results w ++ [r]) w).

Definition read_result (r : addr) : M QueryResult :=
  fun w => (Ok (results w !!! r), w).

Definition write_result (r : addr) (q : QueryResult) : M unit :=
  fun w => (Ok tt, with_results (<[r := q]> (results w)) w).

(** [result.data = a] *)
Definition set_data (r : addr) (a : addr) : M unit :=
  q <- read_result r ;;
  write_result r {| data := a; query := query q; row_count := row_count q;
                    description := description q |}.

(** [result.row_count = n] *)
Definition set_row_count (r : addr) (n : nat) : M unit :=
  q <- read_result r ;;
  write_result r {| data := data q; query := query q; row_count := n;
                    description := description q |}.

(** [result.description = s] *)
Definition set_description (r : addr) (s : string) : M unit :=
  q <- read_result r ;;
  write_result r {| data := data q; query := query q; row_count := row_count q;
                    description := s |}.

Definition get_data (r : addr) : M addr :=
  q <- read_result r ;; ret (data q).

Definition set_last_result (r : addr) : M unit :=
  fun w => (Ok tt, with_last_result (Some r) w).

(** The query text leaves for the archive. *)
Definition submit (q : string) : M unit :=
  fun w => (Ok tt, with_launched (launched w ++ [q]) w).

Definition print (line : string) : M unit :=
  fun w => (Ok tt, with_stdout (stdout w ++ [line]) w).

(** ** Collaborators outside the repository *)

(** The six arrays handed to [SkyCoord(...)]. *)
Record SkyCoordArgs : Type := {
  ra : list float;
  dec : list float;
  distance : list float;
  pm_ra_cosdec : list float;
  pm_dec : list float;
  radial_velocity : list float
}.

(** The three arrays read back from the cylindrical differential, in km/s:
    [vel_cyl.d_rho], [galcen_cyl.rho * vel_cyl.d_phi] and [vel_cyl.d_z].
    The conversions to km/s of lines 420-424 are unit bookkeeping on the
    library's side and are part of this answer. *)
Record CylVelocity : Type := {
  d_rho : list float;
  rho_d_phi : list float;
  d_z : list float
}.

Record Env : Type := {
  (** [config.gaia_table] *)
  gaia_table : string;
  (** [config.default_query_results] *)
  default_results : Z;
  (** [Gaia.launch_job(q).get_results().to_pandas()]: the message of the
      exception raised, or the table. *)
  launch_job : string -> string + DataFrame;
  (** [SkyCoord(..., frame='icrs').transform_to(Galactocentric())] followed
      by the cylindrical representation: the message of the exception
      raised, or the velocity arrays. *)
  galactocentric : SkyCoordArgs -> string + CylVelocity;
  (** how an f-string renders a float *)
  repr : float -> string;
  (** [str.lower()] *)
  lower : string -> string
}.

(** ** Python helpers *)

(** [limit or default] *)
Definition or_default (limit : option Z) (default : Z) : Z :=
  match limit with
  | Some l => if (l =? 0)%Z then default else l
  | None => default
  end.

(** [a / b] on Python floats *)
Definition truediv (a b : float) : M float :=
  if PrimFloat.eqb b 0
  then raise (ZeroDivisionError "float division by zero")
  else ret (a / b)%float.

Definition lower_ascii (c : ascii) : ascii :=
  let n := nat_of_ascii c in
  if (65 <=? n)%nat && (n <=? 90)%nat then ascii_of_nat (n + 32) else c.

(** What [str.lower()] gives on a string of ASCII characters: only A-Z
    change.  The stream names of the error message are such strings. *)
Fixpoint ascii_lower (s : string) : string :=
  match s with
  | EmptyString => EmptyString
  | String c rest => String (lower_ascii c) (ascii_lower rest)
  end.

(** [series > x], [series < x] *)
Definition gt (c : column) (x : float) : list bool :=
  (fun v => PrimFloat.ltb x v) <$> values c.
Definition lt (c : column) (x : float) : list bool :=
  (fun v => PrimFloat.ltb v x) <$> values c.

(** [m1 & m2], [m1 | m2] *)
Definition mask_and (m1 m2 : list bool) : list bool := zip_with andb m1 m2.
Definition mask_or (m1 m2 : list bool) : list bool := zip_with orb m1 m2.

(** [np.abs(series)]; on int64 the most negative value wraps to itself *)
Definition np_abs (c : column) : column :=
  match c with
  | IntCol xs => IntCol ((fun z => if (z =? - 2 ^ 63)%Z then z else Z.abs z) <$> xs)
  | FloatCol xs => FloatCol (PrimFloat.abs <$> xs)
  end.

(** [df[mask].reset_index(drop=True)] as a new object *)
Definition getitem_mask (a : addr) (mask : list bool) : M addr :=
  d <- read_frame a ;; new_frame (select mask d).

(** [df[mask].head(n).reset_index(drop=True)] as a new object *)
Definition getitem_mask_head (a : addr) (mask : list bool) (n : Z) : M addr :=
  d <- read_frame a ;; new_frame (head n (select mask d)).

Fixpoint zip_with3 {A B C D} (f : A -> B -> C -> D)
    (xs : list A) (ys : list B) (zs : list C) : list D :=
  match xs, ys, zs with
  | x :: xs', y :: ys', z :: zs' => f x y z :: zip_with3 f xs' ys' zs'
  | _, _, _ => []
  end.

(** [np.sqrt(a**2 + b**2 + c**2)] on one row *)
Definition norm3 (a b c : float) : float :=
  PrimFloat.sqrt (a * a + b * b + c * c)%float.

Definition derived_columns : list string :=
  ["V_R"; "V_phi"; "V_z"; "v_total"; "distance_kpc"].

(** [sep.join(xs)] *)
Fixpoint join (sep : string) (xs : list string) : string :=
  match xs with
  | [] => ""
  | [x] => x
  | x :: rest => x +:+ sep +:+ join sep rest
  end.

(** ** GaiaService *)

Section GaiaService.

Context (E : Env).

(** Lines 60-62: submit the query and convert the answer to a frame. *)
Definition fetch (q : string) : M addr :=
  submit q ;;;
  match launch_job E q with
  | inl msg => raise (LibraryError msg)
  | inr d => new_frame d
  end.

Definition execute_adql (q : string) : M addr :=
  try_except
    (df <- fetch q ;;
     n <- len df ;;
     query_result <- new_result
       {| data := df; query := q; row_count := n;
          description := "Query returned " +:+ str_int (Z.of_nat n) +:+ " rows" |} ;;
     set_last_result query_result ;;;
     ret query_result)
    (fun e => raise (RuntimeError ("ADQL query failed: " +:+ str_exn e))).

Definition get_last_result : M (option addr) :=
  fun w => (Ok (_last_result w), w).

(** Lines 97-111: the query text of [search_cone]. *)
Definition cone_query (limit : Z) (ra dec radius : float) : string :=
  "
        SELECT TOP " +:+ str_int limit +:+ "
            source_id, ra, dec, parallax, parallax_error,
            pmra, pmdec, radial_velocity,
            phot_g_mean_mag, bp_rp,
            l, b
        FROM " +:+ gaia_table E +:+ "
        WHERE 1=CONTAINS(
            POINT('ICRS', ra, dec),
            CIRCLE('ICRS', " +:+ repr E ra +:+ ", " +:+ repr E dec +:+ ", " +:+ repr E radius +:+ ")
        )
        AND parallax IS NOT NULL
        AND parallax > 0
        ORDER BY parallax DESC
        ".

Definition search_cone (ra dec radius : float) (limit : option Z) : M addr :=
  let limit := or_default limit (default_results E) in
  let q := cone_query limit ra dec radius in
  result <- execute_adql q ;;
  set_description result
    ("Cone search: " +:+ repr E radius +:+ "° around (RA=" +:+ repr E ra
       +:+ "°, Dec=" +:+ repr E dec +:+ "°)") ;;;
  ret result.

(** Lines 135-147: the query text of [search_solar_neighborhood]. *)
Definition solar_neighborhood_query (limit : Z) (min_parallax : float) : string :=
  "
        SELECT TOP " +:+ str_int limit +:+ "
            source_id, ra, dec, parallax, parallax_error,
            pmra, pmdec, radial_velocity,
            phot_g_mean_mag, bp_rp,
            l, b, 
            ruwe
        FROM " +:+ gaia_table E +:+ "
        WHERE parallax > " +:+ repr E min_parallax +:+ "
        AND parallax_over_error > 10
        AND ruwe < 1.4
        ORDER BY parallax DESC
        ".

Definition search_solar_neighborhood (distance_pc : float) (limit : option Z) : M addr :=
  let limit := or_default limit (default_results E) in
  min_parallax <- truediv 1000 distance_pc ;;
  let q := solar_neighborhood_query limit min_parallax in
  result <- execute_adql q ;;
  set_description result ("Solar neighborhood within " +:+ repr E distance_pc +:+ " pc") ;;;
  ret result.

(** Lines 395-417: the sky coordinates built from the table and their
    cylindrical velocity in the Galactocentric frame.  Only reads [df]. *)
Definition galactocentric_velocity (df : addr) : M CylVelocity :=
  c_ra <- getitem df "ra" ;;
  c_dec <- getitem df "dec" ;;
  c_parallax <- getitem df "parallax" ;;
  c_pmra <- getitem df "pmra" ;;
  c_pmdec <- getitem df "pmdec" ;;
  c_rv <- getitem df "radial_velocity" ;;
  match galactocentric E
          {| ra := values c_ra;
             dec := values c_dec;
             distance := (fun p => 1000 / p)%float <$> values c_parallax;
             pm_ra_cosdec := values c_pmra;
             pm_dec := values c_pmdec;
             radial_velocity := values c_rv |} with
  | inl msg => raise (LibraryError msg)
  | inr v => ret v
  end.

(** Lines 420-432: the derived columns, written to [df]. *)
Definition assign_velocities (df : addr) (v : CylVelocity) : M unit :=
  setitem df "V_R" (d_rho v) ;;;
  setitem df "V_phi" (rho_d_phi v) ;;;
  setitem df "V_z" (d_z v) ;;;
  c_vr <- getitem df "V_R" ;;
  c_vphi <- getitem df "V_phi" ;;
  c_vz <- getitem df "V_z" ;;
  setitem df "v_total" (zip_with3 norm3 (values c_vr) (values c_vphi) (values c_vz)) ;;;
  c_parallax <- getitem df "parallax" ;;
  setitem df "distance_kpc" ((fun p => 1 / p)%float <$> values c_parallax).

(** Lines 434-438: the handler, writing to whatever [df] is bound to. *)
Definition fill_missing (df : addr) (e : exn) : M unit :=
  print ("Warning: Could not compute velocities: " +:+ str_exn e) ;;;
  foldr (fun col rest => setitem_scalar df col nan ;;; rest) (ret tt) derived_columns.

(** [_add_galactic_velocities].  The local name [df] is rebound by
    [df = df.copy()] inside the [try]; the handler therefore writes to the
    caller's object when the exception comes before line 419 and to the copy
    when it comes after. *)
Definition _add_galactic_velocities (df : addr) : M addr :=
  n <- len df ;;
  if Nat.eqb n 0 then ret df
  else
    early <- try_except (v <- galactocentric_velocity df ;; ret (inr v))
                        (fun e => ret (inl e)) ;;
    match early with
    | inl e => fill_missing df e ;;; ret df
    | inr v =>
        df' <- copy df ;;
        try_except (assign_velocities df' v) (fill_missing df') ;;;
        ret df'
    end.

(** Lines 180-193: the query text of [search_hypervelocity_stars]. *)
Definition hypervelocity_query (limit : Z) (min_parallax : float) (min_pm : Z) : string :=
  "
        SELECT TOP " +:+ str_int limit +:+ "
            source_id, ra, dec, parallax, parallax_error,
            pmra, pmdec, pmra_error, pmdec_error,
            radial_velocity, radial_velocity_error,
            phot_g_mean_mag, bp_rp,
            l, b
        FROM " +:+ gaia_table E +:+ "
        WHERE parallax > " +:+ repr E min_parallax +:+ "
        AND parallax_over_error > 5
        AND radial_velocity IS NOT NULL
        AND SQRT(pmra*pmra + pmdec*pmdec) > " +:+ str_int min_pm +:+ "
        ORDER BY SQRT(pmra*pmra + pmdec*pmdec) DESC
        ".

Definition search_hypervelocity_stars
    (distance_kpc min_velocity_kms : float) (limit : option Z) : M addr :=
  let limit := or_default limit (Z.min 500 (default_results E)) in
  min_parallax <- truediv 1 distance_kpc ;;
  let min_pm := 20%Z in
  let q := hypervelocity_query limit min_parallax min_pm in
  result <- execute_adql q ;;
  df <- get_data result ;;
  n <- len df ;;
  (if Nat.ltb 0 n then
     df <- get_data result ;;
     df' <- _add_galactic_velocities df ;;
     set_data result df' ;;;
     df <- get_data result ;;
     v_total <- getitem df "v_total" ;;
     df' <- getitem_mask df (gt v_total min_velocity_kms) ;;
     set_data result df' ;;;
     df <- get_data result ;;
     n <- len df ;;
     set_row_count result n
   else ret tt) ;;;
  set_description result
    ("Hypervelocity candidates within " +:+ repr E distance_kpc +:+ " kpc, "
       +:+ "v > " +:+ repr E min_velocity_kms +:+ " km/s") ;;;
  ret result.

(** One entry of the [streams] dictionary. *)
Record Criteria : Type := {
  adql_filter : string;
  criteria_description : string;
  velocity_filter : option (addr -> M addr)
}.

Definition nyx_filter (df : addr) : M addr :=
  v_phi <- getitem df "V_phi" ;;
  v_r <- getitem df "V_R" ;;
  v_r' <- getitem df "V_R" ;;
  getitem_mask df (mask_and (mask_and (gt v_phi 100) (gt v_r 100)) (lt v_r' 200)).

Definition gse_filter (df : addr) : M addr :=
  v_phi <- getitem df "V_phi" ;;
  v_r <- getitem df "V_R" ;;
  getitem_mask df (mask_and (lt (np_abs v_phi) 50) (gt (np_abs v_r) 150)).

Definition helmi_filter (df : addr) : M addr :=
  v_z <- getitem df "V_z" ;;
  v_z' <- getitem df "V_z" ;;
  getitem_mask df (mask_or (gt v_z 150) (lt v_z' (-150))).

Definition sequoia_filter (df : addr) : M addr :=
  v_phi <- getitem df "V_phi" ;;
  getitem_mask df (lt v_phi (-150)).

Definition streams : list (string * Criteria) :=
  [ ("nyx",
     {| adql_filter := "AND b > -30 AND b < 30";
        criteria_description :=
          "Nyx stream candidates - prograde structure near the disk, "
            +:+ "discovered by Necib et al. 2020";
        velocity_filter := Some nyx_filter |});
    ("gse",
     {| adql_filter := "";
        criteria_description :=
          "Gaia-Sausage-Enceladus candidates - major merger remnant "
            +:+ "with highly radial orbits";
        velocity_filter := Some gse_filter |});
    ("gaia-sausage-enceladus",
     {| adql_filter := "";
        criteria_description :=
          "Gaia-Sausage-Enceladus candidates - major merger remnant "
            +:+ "with highly radial orbits";
        velocity_filter := Some gse_filter |});
    ("helmi",
     {| adql_filter := "";
        criteria_description := "Helmi stream candidates - tidally disrupted dwarf galaxy";
        velocity_filter := Some helmi_filter |});
    ("sequoia",
     {| adql_filter := "";
        criteria_description := "Sequoia candidates - retrograde merger remnant";
        velocity_filter := Some sequoia_filter |}) ].

(** [streams.get(stream_name)] *)
Fixpoint dict_get {V : Type} (key : string) (d : list (string * V)) : option V :=
  match d with
  | [] => None
  | (k, v) :: rest => if String.eqb k key then Some v else dict_get key rest
  end.

Definition _get_stream_criteria (stream_name : string) : option Criteria :=
  dict_get stream_name streams.

(** Lines 241-253: the query text of [search_stellar_stream]. *)
Definition stream_query (limit : Z) (filter : string) : string :=
  "
        SELECT TOP " +:+ str_int limit +:+ "
            source_id, ra, dec, parallax, parallax_error,
            pmra, pmdec, radial_velocity,
            phot_g_mean_mag, bp_rp,
            l, b
        FROM " +:+ gaia_table E +:+ "
        WHERE parallax > 0.2
        AND parallax_over_error > 5
        AND radial_velocity IS NOT NULL
        " +:+ filter +:+ "
        ORDER BY parallax DESC
        ".

Definition search_stellar_stream (stream_name : string) (limit : option Z) : M addr :=
  let limit := or_default limit (default_results E) in
  let stream_name := lower E stream_name in
  match _get_stream_criteria stream_name with
  | None =>
      raise (ValueError
               ("Unknown stream: " +:+ stream_name +:+ ". "
                  +:+ "Supported: Nyx, GSE, Gaia-Sausage-Enceladus, Helmi, Sequoia"))
  | Some stream_criteria =>
      let q := stream_query limit (adql_filter stream_criteria) in
      result <- execute_adql q ;;
      df <- get_data result ;;
      n <- len df ;;
      (if Nat.ltb 0 n then
         df <- get_data result ;;
         df' <- _add_galactic_velocities df ;;
         set_data result df' ;;;
         match velocity_filter stream_criteria with
         | Some f =>
             df <- get_data result ;;
             df' <- f df ;;
             set_data result df' ;;;
             df <- get_data result ;;
             n <- len df ;;
             set_row_count result n
         | None => ret tt
         end
       else ret tt) ;;;
      set_description result (criteria_description stream_criteria) ;;;
      ret result
  end.

(** Lines 289-301: the query text of [search_accreted_halo]. *)
Definition accreted_halo_query (top : Z) : string :=
  "
        SELECT TOP " +:+ str_int top +:+ "
            source_id, ra, dec, parallax, parallax_error,
            pmra, pmdec, radial_velocity,
            phot_g_mean_mag, bp_rp,
            l, b
        FROM " +:+ gaia_table E +:+ "
        WHERE parallax > 0.5
        AND parallax_over_error > 5
        AND radial_velocity IS NOT NULL
        AND ABS(b) > 30
        ORDER BY SQRT(pmra*pmra + pmdec*pmdec) DESC
        ".

Definition search_accreted_halo (retrograde_only : bool) (limit : option Z) : M addr :=
  let limit := or_default limit (default_results E) in
  let q := accreted_halo_query (limit * 2) in
  result <- execute_adql q ;;
  df <- get_data result ;;
  n <- len df ;;
  (if Nat.ltb 0 n then
     df <- get_data result ;;
     df' <- _add_galactic_velocities df ;;
     set_data result df' ;;;
     (if retrograde_only then
        df <- get_data result ;;
        v_phi <- getitem df "V_phi" ;;
        df' <- getitem_mask_head df (lt v_phi (-50)) limit ;;
        set_data result df'
      else
        df <- get_data result ;;
        v_phi <- getitem df "V_phi" ;;
        v_phi' <- getitem df "V_phi" ;;
        df' <- getitem_mask_head df
                 (mask_or (lt (np_abs v_phi) 100) (lt v_phi' (-50))) limit ;;
        set_data result df') ;;;
     df <- get_data result ;;
     n <- len df ;;
     set_row_count result n
   else ret tt) ;;;
  let desc := "Accreted halo stars" in
  let desc := if retrograde_only then desc +:+ " (retrograde orbits only)" else desc in
  set_description result desc ;;;
  ret result.

(** Lines 446-480.  [if columns] and [if conditions] test the lists for
    emptiness, [if order_by] tests the string. *)
Definition build_custom_adql (columns conditions : list string)
    (limit : option Z) (order_by : option string) : string :=
  let limit := or_default limit (default_results E) in
  let select_clause := match columns with [] => "*" | _ => join ", " columns end in
  let where_clause := match conditions with [] => "1=1" | _ => join " AND " conditions end in
  let query := "
        SELECT TOP " +:+ str_int limit +:+ "
            " +:+ select_clause +:+ "
        FROM " +:+ gaia_table E +:+ "
        WHERE " +:+ where_clause +:+ "
        " in
  match order_by with
  | None | Some "" => query
  | Some order_by => query +:+ "
ORDER BY " +:+ order_by
  end.

End GaiaService.

(** ** Test doubles and sample data *)

(** The state right after [GaiaService.__init__]. *)
Definition boot : World :=
  {| frames := []; results := []; _last_result := None; launched := []; stdout := [] |}.

(** A stand-in for the frame library.  Like astropy it refuses a negative
    distance for the whole batch; otherwise it hands back, row by row,
    (radial_velocity, pm_ra_cosdec, pm_dec) as (V_R, V_phi, V_z), so that a
    test table chooses its own velocities. *)
Definition mock_frame (args : SkyCoordArgs) : string + CylVelocity :=
  if existsb (fun x => PrimFloat.ltb x 0) (distance args)
  then inl "Distance must be >= 0"
  else inr {| d_rho := radial_velocity args;
              rho_d_phi := pm_ra_cosdec args;
              d_z := pm_dec args |}.

(** An archive that gives the same answer to every query.  Its [lower]
    is the one for ASCII text. *)
Definition mock_env (answer : string + DataFrame) : Env :=
  {| gaia_table := "gaiadr3.gaia_source";
     default_results := 1000;
     launch_job := fun _ => answer;
     galactocentric := mock_frame;
     repr := fun _ => "<float>";
     lower := ascii_lower |}.

Record Star : Type := {
  star_id : Z;
  star_ra : float;
  star_dec : float;
  star_parallax : float;
  star_pmra : float;
  star_pmdec : float;
  star_rv : float
}.

Definition table_of (stars : list Star) : DataFrame :=
  {| nrows := length stars;
     columns :=
       [ ("source_id", IntCol (star_id <$> stars));
         ("ra", FloatCol (star_ra <$> stars));
         ("dec", FloatCol (star_dec <$> stars));
         ("parallax", FloatCol (star_parallax <$> stars));
         ("pmra", FloatCol (star_pmra <$> stars));
         ("pmdec", FloatCol (star_pmdec <$> stars));
         ("radial_velocity", FloatCol (star_rv <$> stars)) ] |}.

(** A world whose only object is the caller's table, at address 0. *)
Definition holding (d : DataFrame) : World := with_frames [d] boot.

(** Sample stars.  With [mock_frame] a star's (radial_velocity, pmra,
    pmdec) are its (V_R, V_phi, V_z). *)
Definition star_a : Star :=
  {| star_id := 1; star_ra := 10; star_dec := 20; star_parallax := 2;
     star_pmra := 0; star_pmdec := 3; star_rv := 4 |}.
Definition star_negative_parallax : Star :=
  {| star_id := 3; star_ra := 11; star_dec := 21; star_parallax := -1;
     star_pmra := 5; star_pmdec := 3; star_rv := 4 |}.
Definition star_retrograde : Star :=
  {| star_id := 2; star_ra := 14; star_dec := 24; star_parallax := 3;
     star_pmra := -60; star_pmdec := 3; star_rv := 4 |}.
Definition star_fast : Star :=
  {| star_id := 6; star_ra := 15; star_dec := 25; star_parallax := 2;
     star_pmra := 30; star_pmdec := 3; star_rv := 400 |}.
Definition star_no_rv : Star :=
  {| star_id := 4; star_ra := 12; star_dec := 22; star_parallax := 2;
     star_pmra := 5; star_pmdec := 3; star_rv := nan |}.
Definition star_no_pm : Star :=
  {| star_id := 5; star_ra := 13; star_dec := 23; star_parallax := 2;
     star_pmra := nan; star_pmdec := 3; star_rv := 4 |}.

(** ** Notions used in the statements *)

(** The value in column [name] at row [i], read as a float. *)
Definition cell_at (d : DataFrame) (name : string) (i : nat) : option float :=
  c ← col_lookup name (columns d); values c !! i.

(** The pandas invariant: every column is as long as the index. *)
Definition well_formed (d : DataFrame) : bool :=
  forallb (fun kc => Nat.eqb (length (values kc.2)) (nrows d)) (columns d).

(** The object at [a] replaced by [f] of its old value. *)
Definition update_frame (a : addr) (f : DataFrame -> DataFrame) (w : World) : World :=
  with_frames (<[a := f (frames w !!! a)]> (frames w)) w.

(** What the handler leaves in a frame: the five derived columns, all NaN. *)
Definition filled (d : DataFrame) : DataFrame :=
  foldl (fun d col => assign col (FloatCol (replicate (nrows d) nan)) d) d derived_columns.

(** What lines 420-432 leave in a frame when nothing raises. *)
Definition with_velocities (v : CylVelocity) (c_parallax : column) (d : DataFrame) : DataFrame :=
  assign "distance_kpc" (FloatCol ((fun p => 1 / p)%float <$> values c_parallax))
    (assign "v_total" (FloatCol (zip_with3 norm3 (d_rho v) (rho_d_phi v) (d_z v)))
       (assign "V_z" (FloatCol (d_z v))
          (assign "V_phi" (FloatCol (rho_d_phi v))
             (assign "V_R" (FloatCol (d_rho v)) d)))).

(** Two frames with the same index length that differ at most in the derived
    columns. *)
Definition agree (d d' : DataFrame) : Prop :=
  nrows d' = nrows d /\
  forall name, name ∉ derived_columns ->
    col_lookup name (columns d') = col_lookup name (columns d).

(** Lines 420-432 can run on [d]: the three arrays fit the index and the
    parallax column is there, as long as the index. *)
Definition assignable (v : CylVelocity) (d : DataFrame) : Prop :=
  length (d_rho v) = nrows d /\
  length (rho_d_phi v) = nrows d /\
  length (d_z v) = nrows d /\
  exists c, col_lookup "parallax" (columns d) = Some c /\ length (values c) = nrows d.

(** The frame library computes the batch held at [df]: no column is missing,
    the library does not raise, and its three arrays have one entry per
    row. *)
Definition converts (E : Env) (w : World) (df : addr) (v : CylVelocity) : Prop :=
  galactocentric_velocity E df w = (Ok v, w) /\
  length (d_rho v) = nrows (frames w !!! df) /\
  length (rho_d_phi v) = nrows (frames w !!! df) /\
  length (d_z v) = nrows (frames w !!! df).

(** The [try] block of [_add_galactic_velocities] raises on the batch held
    at [df]: either before the copy (a missing column, the frame library) or
    after it (the arrays do not fit the table). *)
Definition transform_fails (E : Env) (w : World) (df : addr) : Prop :=
  (exists e, galactocentric_velocity E df w = (Raise e, w)) \/
  (exists v, galactocentric_velocity E df w = (Ok v, w) /\
             ~ assignable v (frames w !!! df)).

(** The public search operations. *)
Inductive call : Type :=
| ExecuteAdql (q : string)
| SearchCone (ra dec radius : float) (limit : option Z)
| SearchSolarNeighborhood (distance_pc : float) (limit : option Z)
| SearchHypervelocityStars (distance_kpc min_velocity_kms : float) (limit : option Z)
| SearchStellarStream (stream_name : string) (limit : option Z)
| SearchAccretedHalo (retrograde_only : bool) (limit : option Z).

Definition perform (E : Env) (c : call) : M addr :=
  match c with
  | ExecuteAdql q => execute_adql E q
  | SearchCone ra dec radius limit => search_cone E ra dec radius limit
  | SearchSolarNeighborhood distance_pc limit => search_solar_neighborhood E distance_pc limit
  | SearchHypervelocityStars distance_kpc min_velocity_kms limit =>
      search_hypervelocity_stars E distance_kpc min_velocity_kms limit
  | SearchStellarStream stream_name limit => search_stellar_stream E stream_name limit
  | SearchAccretedHalo retrograde_only limit => search_accreted_halo E retrograde_only limit
  end.

(** The table a result object points to. *)
Definition table_of_result (w : World) (r : addr) : DataFrame :=
  frames w !!! data (results w !!! r).

(** The stream names the error message of [search_stellar_stream] lists. *)
Definition supported_streams : list string :=
  ["Nyx"; "GSE"; "Gaia-Sausage-Enceladus"; "Helmi"; "Sequoia"].

(** [xs] is a strict subset of [ys], both read as sets. *)
Definition strict_subset (xs ys : list cell) : Prop :=
  (forall x, x ∈ xs -> x ∈ ys) /\ exists y, y ∈ ys /\ y ∉ xs.

(** The line the handler prints. *)
Definition warning (e : exn) : string :=
  "Warning: Could not compute velocities: " +:+ str_exn e.

(** Every run of [_add_galactic_velocities] on a live table takes one of
    four courses. *)
Inductive course (E : Env) (df : addr) (w : World) : outcome addr * World -> Prop :=
| course_empty :
    nrows (frames w !!! df) = 0 ->
    course E df w (Ok df, w)
| course_early e :
    nrows (frames w !!! df) <> 0 ->
    galactocentric_velocity E df w = (Raise e, w) ->
    course E df w
      (Ok df, update_frame df filled (with_stdout (stdout w ++ [warning e]) w))
| course_late v e d' :
    nrows (frames w !!! df) <> 0 ->
    galactocentric_velocity E df w = (Ok v, w) ->
    ~ assignable v (frames w !!! df) ->
    agree (frames w !!! df) d' ->
    course E df w
      (Ok (length (frames w)),
       with_frames (frames w ++ [filled d']) (with_stdout (stdout w ++ [warning e]) w))
| course_converted v c_parallax :
    nrows (frames w !!! df) <> 0 ->
    converts E w df v ->
    col_lookup "parallax" (columns (frames w !!! df)) = Some c_parallax ->
    length (values c_parallax) = nrows (frames w !!! df) ->
    course E df w
      (Ok (length (frames w)),
       with_frames (frames w ++ [with_velocities v c_parallax (frames w !!! df)]) w).

(** The result object [execute_adql] builds for the answer [d]. *)
Definition fresh_result (q : string) (d : DataFrame) (w : World) : QueryResult :=
  {| data := length (frames w); query := q; row_count := nrows d;
     description := "Query returned " +:+ str_int (Z.of_nat (nrows d)) +:+ " rows" |}.

(** The world after [execute_adql] got the answer [d]. *)
Definition answered (q : string) (d : DataFrame) (w : World) : World :=
  with_last_result (Some (length (results w)))
    (with_results (results w ++ [fresh_result q d w])
       (with_frames (frames w ++ [d])
          (with_launched (launched w ++ [q]) w))).

(** A result object whose table exists and whose [row_count] is the length of
    that table. *)
Definition consistent (w : World) (r : addr) : Prop :=
  r < length (results w) /\
  data (results w !!! r) < length (frames w) /\
  row_count (results w !!! r) = nrows (frames w !!! data (results w !!! r)).

(** The mask [search_accreted_halo] applies to the [V_phi] column. *)
Definition halo_mask (retrograde_only : bool) (v_phi : column) : list bool :=
  if retrograde_only then lt v_phi (-50)
  else mask_or (lt (np_abs v_phi) 100) (lt v_phi (-50)).

(** Every derived column is a float column with one entry per row. *)
Definition has_velocities (d : DataFrame) : Prop :=
  forall name, name ∈ derived_columns ->
    exists xs, col_lookup name (columns d) = Some (FloatCol xs) /\ length xs = nrows d.

(** Every derived column holds the missing marker in every row. *)
Definition all_missing (d : DataFrame) : Prop :=
  forall name, name ∈ derived_columns ->
    col_lookup name (columns d) = Some (FloatCol (replicate (nrows d) nan)).

(** The frame transform fails on the table [d], wherever it is stored. *)
Definition batch_fails (E : Env) (d : DataFrame) : Prop :=
  transform_fails E (holding d) 0.

(** In [w] the result object [r] is new since [w0], carries the query
    [text], points to a table new since [w0] whose value is [t], is the
    stored last result, and [text] is the one query sent since [w0]; the
    objects of [w0] are as they were. *)
Definition holds (w0 : World) (text : string) (t : DataFrame) (w : World) (r : addr) : Prop :=
  r = length (results w0) /\
  length (results w) = S r /\
  query (results w !!! r) = text /\
  length (frames w0) <= data (results w !!! r) < length (frames w) /\
  frames w !!! data (results w !!! r) = t /\
  (forall b, b < length (results w0) -> results w !!! b = results w0 !!! b) /\
  (forall b, b < length (frames w0) -> frames w !!! b = frames w0 !!! b) /\
  _last_result w = Some r /\
  launched w = (launched w0 ++ [text])%list.

(** The column [name] of [d]; an empty column when [d] has none. *)
Definition col (d : DataFrame) (name : string) : column :=
  default (FloatCol []) (col_lookup name (columns d)).

(** The masks of the four velocity filters of [streams], read off a table
    that has the velocity columns. *)
Definition nyx_mask (d : DataFrame) : list bool :=
  mask_and (mask_and (gt (col d "V_phi") 100) (gt (col d "V_R") 100))
           (lt (col d "V_R") 200).
Definition gse_mask (d : DataFrame) : list bool :=
  mask_and (lt (np_abs (col d "V_phi")) 50) (gt (np_abs (col d "V_R")) 150).
Definition helmi_mask (d : DataFrame) : list bool :=
  mask_or (gt (col d "V_z") 150) (lt (col d "V_z") (-150)).
Definition sequoia_mask (d : DataFrame) : list bool :=
  lt (col d "V_phi") (-150).

(** The mask behind each key of [streams]. *)
Definition stream_mask (key : string) (d : DataFrame) : list bool :=
  if String.eqb key "nyx" then nyx_mask d
  else if String.eqb key "gse" then gse_mask d
  else if String.eqb key "gaia-sausage-enceladus" then gse_mask d
  else if String.eqb key "helmi" then helmi_mask d
  else sequoia_mask d.

(** The table a kinematic search returns for the answer [d0]: the answer
    itself when it has no rows, otherwise [pick] of the transformed
    answer. *)
Definition kinematic (E : Env) (d0 t : DataFrame) (pick : DataFrame -> DataFrame) : Prop :=
  (nrows d0 = 0 /\ t = d0) \/
  (nrows d0 <> 0 /\
   exists d',
     agree d0 d' /\ has_velocities d' /\ (batch_fails E d0 -> all_missing d') /\
     t = pick d').

(** What a call checks before it builds its query, and the query text. *)
Definition request (E : Env) (c : call) : exn + string :=
  match c with
  | ExecuteAdql q => inr q
  | SearchCone ra dec radius limit =>
      inr (cone_query E (or_default limit (default_results E)) ra dec radius)
  | SearchSolarNeighborhood distance_pc limit =>
      if PrimFloat.eqb distance_pc 0
      then inl (ZeroDivisionError "float division by zero")
      else inr (solar_neighborhood_query E (or_default limit (default_results E))
                  (1000 / distance_pc)%float)
  | SearchHypervelocityStars distance_kpc _ limit =>
      if PrimFloat.eqb distance_kpc 0
      then inl (ZeroDivisionError "float division by zero")
      else inr (hypervelocity_query E (or_default limit (Z.min 500 (default_results E)))
                  (1 / distance_kpc)%float 20)
  | SearchStellarStream stream_name limit =>
      match _get_stream_criteria (lower E stream_name) with
      | None =>
          inl (ValueError
                 ("Unknown stream: " +:+ lower E stream_name +:+ ". "
                    +:+ "Supported: Nyx, GSE, Gaia-Sausage-Enceladus, Helmi, Sequoia"))
      | Some criteria =>
          inr (stream_query E (or_default limit (default_results E)) (adql_filter criteria))
      end
  | SearchAccretedHalo _ limit =>
      inr (accreted_halo_query E (or_default limit (default_results E) * 2))
  end.

(** The table a call returns for the answer [d0]. *)
Definition returns (E : Env) (c : call) (d0 t : DataFrame) : Prop :=
  match c with
  | ExecuteAdql _ | SearchCone _ _ _ _ | SearchSolarNeighborhood _ _ => t = d0
  | SearchHypervelocityStars _ min_velocity_kms _ =>
      kinematic E d0 t (fun d => select (gt (col d "v_total") min_velocity_kms) d)
  | SearchStellarStream stream_name _ =>
      kinematic E d0 t (fun d => select (stream_mask (lower E stream_name) d) d)
  | SearchAccretedHalo retrograde_only limit =>
      kinematic E d0 t
        (fun d => head (or_default limit (default_results E))
                    (select (halo_mask retrograde_only (col d "V_phi")) d))
  end.

(** The archive only answers with tables that satisfy the pandas
    invariant. *)
Definition archive_well_formed (E : Env) : Prop :=
  forall q d, launch_job E q = inr d -> well_formed d = true.

(** The calls that transform and select. *)
Definition kinematic_call (c : call) : bool :=
  match c with
  | SearchHypervelocityStars _ _ _ | SearchStellarStream _ _ | SearchAccretedHalo _ _ => true
  | _ => false
  end.

(** The call [c] with its [limit] argument replaced. *)
Definition with_limit (limit : option Z) (c : call) : call :=
  match c with
  | ExecuteAdql q => ExecuteAdql q
  | SearchCone ra dec radius _ => SearchCone ra dec radius limit
  | SearchSolarNeighborhood distance_pc _ => SearchSolarNeighborhood distance_pc limit
  | SearchHypervelocityStars distance_kpc min_velocity_kms _ =>
      SearchHypervelocityStars distance_kpc min_velocity_kms limit
  | SearchStellarStream stream_name _ => SearchStellarStream stream_name limit
  | SearchAccretedHalo retrograde_only _ => SearchAccretedHalo retrograde_only limit
  end.

(** * Properties *)

(** ** Columns and frames *)

Lemma col_lookup_assign_eq name c cs :
  col_lookup name (col_assign name c cs) = Some c.
Proof.
  induction cs as [|[k c0] cs IH]; simpl.
  - by rewrite String.eqb_refl.
  - destruct (String.eqb k name) eqn:Hk; simpl; rewrite Hk; [done | apply IH].
Qed.

Lemma col_lookup_assign_ne name other c cs :
  name <> other ->
  col_lookup other (col_assign name c cs) = col_lookup other cs.
Proof.
  intros Hne. induction cs as [|[k c0] cs IH]; simpl.
  - destruct (String.eqb name other) eqn:Hk; [|done].
    apply String.eqb_eq in Hk. contradiction.
  - destruct (String.eqb k name) eqn:Hk; simpl.
    + apply String.eqb_eq in Hk. subst k.
      destruct (String.eqb name other) eqn:Hk'; [|done].
      apply String.eqb_eq in Hk'. contradiction.
    + destruct (String.eqb k other); [done | apply IH].
Qed.

Lemma agree_refl d : agree d d.
Proof. by split. Qed.

Lemma agree_trans d1 d2 d3 : agree d1 d2 -> agree d2 d3 -> agree d1 d3.
Proof.
  intros [Hn Hc] [Hn' Hc']. split; [congruence|].
  intros name Hname. rewrite Hc', Hc; done.
Qed.

Lemma agree_assign name c d :
  name ∈ derived_columns -> agree d (assign name c d).
Proof.
  intros Hin. split; [done|]. intros other Hother. simpl.
  apply col_lookup_assign_ne. intros ->. contradiction.
Qed.

Lemma agree_filled d : agree d (filled d).
Proof.
  unfold filled, derived_columns. simpl.
  repeat (eapply agree_trans; [|apply agree_assign; unfold derived_columns; solve [repeat constructor]]).
  apply agree_refl.
Qed.

Lemma filled_nrows d : nrows (filled d) = nrows d.
Proof. reflexivity. Qed.

Lemma filled_lookup d name :
  name ∈ derived_columns ->
  col_lookup name (columns (filled d)) = Some (FloatCol (replicate (nrows d) nan)).
Proof.
  unfold derived_columns. intros Hin.
  repeat (apply elem_of_cons in Hin as [-> | Hin]);
    [ .. | by apply elem_of_nil in Hin ];
    unfold filled, derived_columns; simpl;
    rewrite ?col_lookup_assign_eq;
    repeat (rewrite col_lookup_assign_ne by discriminate);
    by rewrite ?col_lookup_assign_eq.
Qed.

Lemma well_formed_lookup d name c :
  well_formed d = true ->
  col_lookup name (columns d) = Some c ->
  length (values c) = nrows d.
Proof.
  unfold well_formed. generalize (nrows d) as n. intros n.
  induction (columns d) as [|[k c0] cs IH]; simpl; [done|].
  intros [H1 H2]%andb_true_iff.
  destruct (String.eqb k name).
  - intros [= ->]. by apply Nat.eqb_eq.
  - by apply IH.
Qed.

(** ** The store *)

Lemma update_frame_length a f w :
  length (frames (update_frame a f w)) = length (frames w).
Proof. simpl. apply length_insert. Qed.

Lemma update_frame_read a f w :
  a < length (frames w) -> frames (update_frame a f w) !!! a = f (frames w !!! a).
Proof. intros Ha. simpl. by rewrite list_lookup_total_insert_eq. Qed.

Lemma update_frame_twice a f g w :
  a < length (frames w) ->
  update_frame a g (update_frame a f w) = update_frame a (g ∘ f) w.
Proof.
  intros Ha. unfold update_frame at 1 3. rewrite update_frame_read by done.
  simpl. by rewrite list_insert_insert_eq.
Qed.

Lemma update_frame_id a w : update_frame a id w = w.
Proof.
  unfold update_frame, with_frames. destruct w as [fs rs lr la so]; simpl. f_equal.
  destruct (decide (a < length fs)) as [Ha|Ha].
  - apply list_insert_id. by apply list_lookup_lookup_total_lt.
  - apply list_insert_ge. lia.
Qed.

Lemma update_frame_last (fs : list DataFrame) d f w :
  frames w = (fs ++ [d])%list ->
  update_frame (length fs) f w = with_frames (fs ++ [f d])%list w.
Proof.
  intros Hw. unfold update_frame. rewrite Hw. f_equal.
  rewrite lookup_total_app_r by lia. rewrite Nat.sub_diag. simpl.
  rewrite insert_app_r_alt by lia. by rewrite Nat.sub_diag.
Qed.

Lemma lookup_last (fs : list DataFrame) d : (fs ++ [d])%list !!! length fs = d.
Proof. rewrite lookup_total_app_r by lia. by rewrite Nat.sub_diag. Qed.

Lemma lookup_last_result (rs : list QueryResult) q : (rs ++ [q])%list !!! length rs = q.
Proof. rewrite lookup_total_app_r by lia. by rewrite Nat.sub_diag. Qed.

(** ** Running the primitives *)

Lemma bind_run {A B} (m : M A) (k : A -> M B) w :
  bind m k w = match m w with
               | (Ok a, w') => k a w'
               | (Raise e, w') => (Raise e, w')
               end.
Proof. reflexivity. Qed.

Lemma getitem_run a name w :
  getitem a name w =
  match col_lookup name (columns (frames w !!! a)) with
  | Some c => (Ok c, w)
  | None => (Raise (KeyError name), w)
  end.
Proof. unfold getitem, bind, read_frame. by destruct (col_lookup _ _). Qed.

Lemma setitem_run a name xs w :
  setitem a name xs w =
  if Nat.eqb (length xs) (nrows (frames w !!! a))
  then (Ok tt, update_frame a (assign name (FloatCol xs)) w)
  else (Raise (ValueError "Length of values does not match length of index"), w).
Proof. unfold setitem, bind, read_frame. by destruct (Nat.eqb _ _). Qed.

Lemma setitem_scalar_run a name x w :
  setitem_scalar a name x w
  = (Ok tt, update_frame a (fun d => assign name (FloatCol (replicate (nrows d) x)) d) w).
Proof. reflexivity. Qed.

Lemma fill_missing_run a e w :
  a < length (frames w) ->
  fill_missing a e w
  = (Ok tt, update_frame a filled
              (with_stdout (stdout w ++ ["Warning: Could not compute velocities: " +:+ str_exn e]) w)).
Proof.
  intros Ha. unfold fill_missing, derived_columns.
  unfold bind, print. cbn [foldr]. unfold bind.
  rewrite !setitem_scalar_run.
  set (w1 := with_stdout _ w).
  assert (Ha1 : a < length (frames w1)) by done.
  repeat (rewrite update_frame_twice by (rewrite ?update_frame_length; done)).
  reflexivity.
Qed.

Lemma zip_with3_length {A B C D} (f : A -> B -> C -> D) xs ys zs n :
  length xs = n -> length ys = n -> length zs = n ->
  length (zip_with3 f xs ys zs) = n.
Proof.
  revert ys zs n. induction xs as [|x xs IH]; intros [|y ys] [|z zs] n; simpl; try congruence.
  intros <- [=] [=]. f_equal. by apply IH.
Qed.

Lemma zip_with3_lookup {A B C D} (f : A -> B -> C -> D) xs ys zs i x y z :
  xs !! i = Some x -> ys !! i = Some y -> zs !! i = Some z ->
  zip_with3 f xs ys zs !! i = Some (f x y z).
Proof.
  revert ys zs i. induction xs as [|x0 xs IH]; intros [|y0 ys] [|z0 zs] [|i]; simpl; try done.
  - by intros [= ->] [= ->] [= ->].
  - apply IH.
Qed.

Ltac derived_member := unfold derived_columns; solve [repeat constructor].

Ltac agree_chain :=
  unfold compose; cbv beta;
  repeat (eapply agree_trans; [|apply agree_assign; derived_member]);
  apply agree_refl.

Ltac not_assignable :=
  intros (? & ? & ? & ? & ? & ?);
  repeat match goal with
         | H : Nat.eqb _ _ = false |- _ => apply Nat.eqb_neq in H
         | H : context [length (_ <$> _)] |- _ => rewrite length_fmap in H
         end;
  congruence.

Ltac raised Hd :=
  cbv beta iota; split; [not_assignable|];
  eexists; split; [| unfold update_frame; cbv beta; rewrite <- ?Hd; reflexivity];
  agree_chain.

(** What [assign_velocities] does to the frame it is given. *)
Lemma assign_velocities_run a v w :
  a < length (frames w) ->
  match assign_velocities a v w with
  | (Ok _, w') =>
      exists c_parallax,
        col_lookup "parallax" (columns (frames w !!! a)) = Some c_parallax /\
        length (d_rho v) = nrows (frames w !!! a) /\
        length (rho_d_phi v) = nrows (frames w !!! a) /\
        length (d_z v) = nrows (frames w !!! a) /\
        length (values c_parallax) = nrows (frames w !!! a) /\
        w' = update_frame a (with_velocities v c_parallax) w
  | (Raise _, w') =>
      ~ assignable v (frames w !!! a) /\
      exists d', agree (frames w !!! a) d' /\ w' = update_frame a (fun _ => d') w
  end.
Proof.
  intros Ha. remember (frames w !!! a) as d eqn:Hd. unfold assign_velocities.
  rewrite bind_run, setitem_run. rewrite <- ?Hd.
  destruct (Nat.eqb (length (d_rho v)) (nrows d)) eqn:H1.
  2:{ cbv beta iota. split; [not_assignable|].
      exists d. split; [apply agree_refl|]. subst d. symmetry. apply (update_frame_id a w). }
  rewrite bind_run, setitem_run, update_frame_read by done. rewrite <- ?Hd. simpl nrows.
  destruct (Nat.eqb (length (rho_d_phi v)) (nrows d)) eqn:H2; [|raised Hd].
  rewrite update_frame_twice by done.
  rewrite bind_run, setitem_run, update_frame_read by done. rewrite <- ?Hd. simpl nrows.
  destruct (Nat.eqb (length (d_z v)) (nrows d)) eqn:H3; [|raised Hd].
  rewrite update_frame_twice by done.
  rewrite bind_run, getitem_run, update_frame_read by done. rewrite <- ?Hd.
  unfold compose at 1. simpl columns.
  rewrite 2!(col_lookup_assign_ne _ "V_R") by discriminate.
  rewrite col_lookup_assign_eq.
  rewrite bind_run, getitem_run, update_frame_read by done. rewrite <- ?Hd.
  unfold compose at 1. simpl columns.
  rewrite (col_lookup_assign_ne _ "V_phi") by discriminate.
  rewrite col_lookup_assign_eq.
  rewrite bind_run, getitem_run, update_frame_read by done. rewrite <- ?Hd.
  unfold compose at 1. simpl columns.
  rewrite col_lookup_assign_eq.
  cbn [values].
  apply Nat.eqb_eq in H1, H2, H3.
  rewrite bind_run, setitem_run, update_frame_read by done. rewrite <- ?Hd.
  unfold compose at 1. simpl nrows.
  rewrite (zip_with3_length norm3 _ _ _ (nrows d)) by done.
  rewrite Nat.eqb_refl.
  rewrite update_frame_twice by done.
  rewrite bind_run, getitem_run, update_frame_read by done. rewrite <- ?Hd.
  unfold compose at 1 2. simpl columns.
  rewrite 4!(col_lookup_assign_ne _ "parallax") by discriminate.
  destruct (col_lookup "parallax" (columns d)) as [c_parallax|] eqn:Hp; [|raised Hd].
  rewrite setitem_run, update_frame_read by done. rewrite <- ?Hd.
  unfold compose at 1 2. simpl nrows.
  destruct (Nat.eqb (length _) (nrows d)) eqn:H5; [|raised Hd].
  rewrite update_frame_twice by done.
  apply Nat.eqb_eq in H5. rewrite length_fmap in H5.
  exists c_parallax. repeat split; done.
Qed.

(** ** The velocity transform *)

Lemma galactocentric_velocity_reads E df w :
  (galactocentric_velocity E df w).2 = w.
Proof.
  unfold galactocentric_velocity.
  repeat (rewrite bind_run, getitem_run; destruct (col_lookup _ _); [|done]).
  by destruct (galactocentric E _).
Qed.

(** The arrays behind a successful call of the frame library. *)
Lemma galactocentric_velocity_ok E df w v w' :
  galactocentric_velocity E df w = (Ok v, w') ->
  exists c_ra c_dec c_parallax c_pmra c_pmdec c_rv,
    let d := frames w !!! df in
    col_lookup "ra" (columns d) = Some c_ra /\
    col_lookup "dec" (columns d) = Some c_dec /\
    col_lookup "parallax" (columns d) = Some c_parallax /\
    col_lookup "pmra" (columns d) = Some c_pmra /\
    col_lookup "pmdec" (columns d) = Some c_pmdec /\
    col_lookup "radial_velocity" (columns d) = Some c_rv /\
    galactocentric E
      {| ra := values c_ra;
         dec := values c_dec;
         distance := (fun p => 1000 / p)%float <$> values c_parallax;
         pm_ra_cosdec := values c_pmra;
         pm_dec := values c_pmdec;
         radial_velocity := values c_rv |} = inr v.
Proof.
  unfold galactocentric_velocity.
  rewrite bind_run, getitem_run; destruct (col_lookup _ _) as [c_ra|]; [|done].
  rewrite bind_run, getitem_run; destruct (col_lookup _ _) as [c_dec|]; [|done].
  rewrite bind_run, getitem_run; destruct (col_lookup _ _) as [c_parallax|]; [|done].
  rewrite bind_run, getitem_run; destruct (col_lookup _ _) as [c_pmra|]; [|done].
  rewrite bind_run, getitem_run; destruct (col_lookup _ _) as [c_pmdec|]; [|done].
  rewrite bind_run, getitem_run; destruct (col_lookup _ _) as [c_rv|]; [|done].
  destruct (galactocentric E _) as [msg|v'] eqn:Hlib; [done|].
  intros [= <- <-]. exists c_ra, c_dec, c_parallax, c_pmra, c_pmdec, c_rv. done.
Qed.

Lemma with_frames_twice fs fs' w :
  with_frames fs (with_frames fs' w) = with_frames fs w.
Proof. reflexivity. Qed.

Lemma add_galactic_velocities_course E df w :
  df < length (frames w) ->
  course E df w (_add_galactic_velocities E df w).
Proof.
  intros Hdf. unfold _add_galactic_velocities.
  rewrite bind_run. unfold len at 1. rewrite bind_run. unfold read_frame at 1, ret at 1.
  cbv beta iota.
  destruct (Nat.eqb (nrows (frames w !!! df)) 0) eqn:Hn.
  { apply Nat.eqb_eq in Hn. by constructor. }
  apply Nat.eqb_neq in Hn.
  rewrite bind_run. unfold try_except at 1. rewrite bind_run.
  pose proof (galactocentric_velocity_reads E df w) as Hreads.
  destruct (galactocentric_velocity E df w) as [[v|e] w0] eqn:Hgv;
    simpl in Hreads; subst w0; cbv beta iota; unfold ret at 1; cbv beta iota.
  - (* the library answered *)
    rewrite bind_run. unfold copy at 1. rewrite bind_run.
    unfold read_frame at 1, new_frame at 1. cbv beta iota.
    set (w1 := with_frames _ w).
    assert (Hw1 : frames w1 = (frames w ++ [frames w !!! df])%list) by done.
    assert (Ha : length (frames w) < length (frames w1)).
    { rewrite Hw1, length_app. simpl. lia. }
    assert (Hread : frames w1 !!! length (frames w) = frames w !!! df).
    { rewrite Hw1, lookup_total_app_r by lia. by rewrite Nat.sub_diag. }
    rewrite bind_run. unfold try_except at 1.
    pose proof (assign_velocities_run (length (frames w)) v w1 Ha) as Hrun.
    destruct (assign_velocities (length (frames w)) v w1) as [[[]|e] w2].
    + destruct Hrun as (c & Hc & H1 & H2 & H3 & H4 & ->).
      rewrite Hread in *. cbv beta iota. unfold ret.
      rewrite (update_frame_last _ _ _ _ Hw1). subst w1.
      rewrite with_frames_twice.
      by apply course_converted.
    + destruct Hrun as (Hnot & d' & Hagree & ->). rewrite Hread in Hagree, Hnot.
      rewrite (update_frame_last _ _ _ _ Hw1). cbv beta.
      rewrite fill_missing_run by (simpl; rewrite length_app; simpl; lia).
      cbv beta iota. unfold ret.
      erewrite update_frame_last by reflexivity. subst w1.
      exact (course_late E df w v e d' Hn Hgv Hnot Hagree).
  - (* an exception before the copy *)
    rewrite bind_run, fill_missing_run by done. cbv beta iota. unfold ret.
    by apply course_early.
Qed.

Lemma with_velocities_agree v c d : agree d (with_velocities v c d).
Proof. unfold with_velocities. agree_chain. Qed.

Lemma with_velocities_columns v c d :
  let cs := columns (with_velocities v c d) in
  col_lookup "V_R" cs = Some (FloatCol (d_rho v)) /\
  col_lookup "V_phi" cs = Some (FloatCol (rho_d_phi v)) /\
  col_lookup "V_z" cs = Some (FloatCol (d_z v)) /\
  col_lookup "v_total" cs
    = Some (FloatCol (zip_with3 norm3 (d_rho v) (rho_d_phi v) (d_z v))) /\
  col_lookup "distance_kpc" cs
    = Some (FloatCol ((fun p => 1 / p)%float <$> values c)).
Proof.
  unfold with_velocities; simpl.
  repeat split;
    repeat (rewrite col_lookup_assign_ne by discriminate);
    apply col_lookup_assign_eq.
Qed.


(** Claim C6.  If the frame transform cannot be computed for a batch, the
    velocity transform does not raise: it returns a table with every row
    still present (same index length, every other column as it was) whose
    five derived columns [V_R], [V_phi], [V_z], [v_total], [distance_kpc]
    hold the missing marker NaN in every row; NaN is not zero. *)
Theorem transform_failure_fills_missing E w df :
  df < length (frames w) ->
  nrows (frames w !!! df) <> 0 ->
  transform_fails E w df ->
  exists a w',
    _add_galactic_velocities E df w = (Ok a, w') /\
    nrows (frames w' !!! a) = nrows (frames w !!! df) /\
    (forall name, name ∉ derived_columns ->
       col_lookup name (columns (frames w' !!! a))
       = col_lookup name (columns (frames w !!! df))) /\
    (forall name, name ∈ derived_columns ->
       col_lookup name (columns (frames w' !!! a))
       = Some (FloatCol (replicate (nrows (frames w !!! df)) nan))) /\
    PrimFloat.is_nan nan = true /\ PrimFloat.eqb nan 0 = false.
Proof.
  intros Hdf Hn Hfails.
  destruct (add_galactic_velocities_course E df w Hdf)
    as [H0|e' _ He'|v e' d' _ Hv _ [Hrows Hcols]|v c _ (Hv & H1 & H2 & H3) Hc Hlen];
    [contradiction | | | ].
  - eexists _, _. split; [reflexivity|].
    rewrite update_frame_read by done. simpl frames.
    repeat split.
    + intros name Hname. by apply agree_filled.
    + intros name Hname. by apply filled_lookup.
  - eexists _, _. split; [reflexivity|].
    simpl frames. rewrite lookup_last.
    repeat split.
    + done.
    + intros name Hname. rewrite <- Hcols by done. by apply agree_filled.
    + intros name Hname. rewrite <- Hrows. by apply filled_lookup.
  - exfalso. destruct Hfails as [(e & He) | (v' & Hv' & Hnot)]; [congruence|].
    apply Hnot. assert (v' = v) as -> by congruence.
    repeat split; try done. by exists c.
Qed.

Lemma transform_failure_fills_missing_witness :
  let w := holding (table_of [star_a; star_negative_parallax]) in
  let E := mock_env (inl "offline") in
  0 < length (frames w) /\
  nrows (frames w !!! 0) <> 0 /\
  transform_fails E w 0 /\
  exists a w',
    _add_galactic_velocities E 0 w = (Ok a, w') /\
    nrows (frames w' !!! a) = nrows (frames w !!! 0) /\
    (forall name, name ∉ derived_columns ->
       col_lookup name (columns (frames w' !!! a))
       = col_lookup name (columns (frames w !!! 0))) /\
    (forall name, name ∈ derived_columns ->
       col_lookup name (columns (frames w' !!! a))
       = Some (FloatCol (replicate (nrows (frames w !!! 0)) nan))) /\
    PrimFloat.is_nan nan = true /\ PrimFloat.eqb nan 0 = false.
Proof.
  intros w E.
  assert (H1 : 0 < length (frames w)) by (simpl; lia).
  assert (H2 : nrows (frames w !!! 0) <> 0) by (simpl; lia).
  assert (H3 : transform_fails E w 0).
  { left. exists (LibraryError "Distance must be >= 0"). reflexivity. }
  split; [exact H1|]. split; [exact H2|]. split; [exact H3|].
  exact (transform_failure_fills_missing E w 0 H1 H2 H3).
Defined.

Lemma add_galactic_velocities_converted E w df v :
  df < length (frames w) ->
  nrows (frames w !!! df) <> 0 ->
  well_formed (frames w !!! df) = true ->
  converts E w df v ->
  exists c_parallax,
    col_lookup "parallax" (columns (frames w !!! df)) = Some c_parallax /\
    _add_galactic_velocities E df w
    = (Ok (length (frames w)),
       with_frames (frames w ++ [with_velocities v c_parallax (frames w !!! df)]) w).
Proof.
  intros Hdf Hn Hwf (Hgv & H1 & H2 & H3).
  destruct (add_galactic_velocities_course E df w Hdf)
    as [H0|e' _ He'|v' e' d' _ Hv' Hnot _|v' c _ [Hv' _] Hc _];
    [contradiction | congruence | | ].
  - exfalso. apply Hnot. assert (v' = v) as -> by congruence.
    destruct (galactocentric_velocity_ok _ _ _ _ _ Hgv)
      as (_ & _ & c & _ & _ & _ & _ & _ & Hc & _).
    repeat split; try done. exists c. split; [done|].
    by eapply well_formed_lookup.
  - assert (v' = v) as -> by congruence. by exists c.
Qed.

Lemma cell_at_parallax_row d i p :
  well_formed d = true -> cell_at d "parallax" i = Some p -> nrows d <> 0.
Proof.
  unfold cell_at. intros Hwf Hcell.
  destruct (col_lookup "parallax" (columns d)) as [c|] eqn:Hc; [|done].
  simpl in Hcell. apply lookup_lt_Some in Hcell.
  rewrite (well_formed_lookup _ _ _ Hwf Hc) in Hcell. lia.
Qed.

(** Claim C7.  On a batch the transform processes successfully, the
    [distance_kpc] column of a row holds exactly the binary64 quotient
    [1 / parallax], computed from the parallax column itself, while the
    distance that entered the phase-space coordinates of that row is
    [1000 / parallax].  (Proved for every row, a fortiori for those with
    parallax > 0.) *)
Theorem distance_kpc_is_reciprocal_parallax E w df v i p :
  df < length (frames w) ->
  well_formed (frames w !!! df) = true ->
  converts E w df v ->
  cell_at (frames w !!! df) "parallax" i = Some p ->
  exists a w' args,
    _add_galactic_velocities E df w = (Ok a, w') /\
    cell_at (frames w' !!! a) "distance_kpc" i = Some (1 / p)%float /\
    galactocentric E args = inr v /\
    distance args !! i = Some (1000 / p)%float.
Proof.
  intros Hdf Hwf Hconv Hcell.
  pose proof (cell_at_parallax_row _ _ _ Hwf Hcell) as Hn.
  destruct (add_galactic_velocities_converted E w df v Hdf Hn Hwf Hconv)
    as (c & Hc & Hrun).
  destruct Hconv as (Hgv & _).
  destruct (galactocentric_velocity_ok _ _ _ _ _ Hgv)
    as (c_ra & c_dec & c' & c_pmra & c_pmdec & c_rv & _ & _ & Hc' & _ & _ & _ & Hlib).
  assert (c' = c) as -> by congruence.
  unfold cell_at in Hcell. rewrite Hc in Hcell. simpl in Hcell.
  eexists _, _, _. split; [exact Hrun|]. simpl frames. rewrite lookup_last.
  split; [|split; [exact Hlib|]].
  - unfold cell_at.
    destruct (with_velocities_columns v c (frames w !!! df)) as (_ & _ & _ & _ & ->).
    simpl. by rewrite list_lookup_fmap, Hcell.
  - simpl. by rewrite list_lookup_fmap, Hcell.
Qed.

Lemma distance_kpc_is_reciprocal_parallax_witness :
  let w := holding (table_of [star_a; star_no_rv]) in
  let E := mock_env (inl "offline") in
  let v := {| d_rho := [4; nan]; rho_d_phi := [0; 5]; d_z := [3; 3] |}%float in
  0 < length (frames w) /\
  well_formed (frames w !!! 0) = true /\
  converts E w 0 v /\
  cell_at (frames w !!! 0) "parallax" 1 = Some 2%float /\
  exists a w' args,
    _add_galactic_velocities E 0 w = (Ok a, w') /\
    cell_at (frames w' !!! a) "distance_kpc" 1 = Some (1 / 2)%float /\
    galactocentric E args = inr v /\
    distance args !! 1 = Some (1000 / 2)%float.
Proof.
  intros w E v.
  assert (H1 : 0 < length (frames w)) by (simpl; lia).
  assert (H2 : well_formed (frames w !!! 0) = true) by reflexivity.
  assert (H3 : converts E w 0 v) by (repeat split).
  assert (H4 : cell_at (frames w !!! 0) "parallax" 1 = Some 2%float) by reflexivity.
  split; [exact H1|]. split; [exact H2|]. split; [exact H3|]. split; [exact H4|].
  exact (distance_kpc_is_reciprocal_parallax E w 0 v 1 2%float H1 H2 H3 H4).
Defined.

(** The kiloparsec column is not the parsec distance rescaled: at a parallax
    of 2.25 mas the two roundings differ. *)
Example reciprocal_is_not_rescaled_parsecs :
  let d := with_velocities {| d_rho := [0]; rho_d_phi := [0]; d_z := [0] |}%float
             (FloatCol [2.25%float])
             {| nrows := 1; columns := [("parallax", FloatCol [2.25%float])] |} in
  cell_at d "distance_kpc" 0 = Some (1 / 2.25)%float /\
  PrimFloat.eqb (1 / 2.25) ((1000 / 2.25) / 1000) = false.
Proof. split; reflexivity. Qed.

Lemma lookup_lt_is_Some' {A} (l : list A) i : i < length l -> exists x, l !! i = Some x.
Proof. intros H. by apply lookup_lt_is_Some in H as [x Hx]; exists x. Qed.

(** Claim C1, as amended.  On a batch the frame library converts, every row
    (so every row with parallax > 0 and radial_velocity present) receives in
    [V_R], [V_phi], [V_z] exactly the three values the library returned for
    it, and [v_total] is exactly [sqrt (V_R*V_R + V_phi*V_phi + V_z*V_z)] in
    binary64. *)
Theorem converted_rows_carry_library_velocities E w df v i :
  df < length (frames w) ->
  well_formed (frames w !!! df) = true ->
  converts E w df v ->
  i < nrows (frames w !!! df) ->
  exists a w' v_r v_phi v_z,
    _add_galactic_velocities E df w = (Ok a, w') /\
    d_rho v !! i = Some v_r /\
    rho_d_phi v !! i = Some v_phi /\
    d_z v !! i = Some v_z /\
    cell_at (frames w' !!! a) "V_R" i = Some v_r /\
    cell_at (frames w' !!! a) "V_phi" i = Some v_phi /\
    cell_at (frames w' !!! a) "V_z" i = Some v_z /\
    cell_at (frames w' !!! a) "v_total" i = Some (norm3 v_r v_phi v_z).
Proof.
  intros Hdf Hwf Hconv Hi.
  assert (Hn : nrows (frames w !!! df) <> 0) by lia.
  destruct (add_galactic_velocities_converted E w df v Hdf Hn Hwf Hconv)
    as (c & Hc & Hrun).
  destruct Hconv as (_ & H1 & H2 & H3).
  destruct (lookup_lt_is_Some' (d_rho v) i) as [v_r Hr]; [lia|].
  destruct (lookup_lt_is_Some' (rho_d_phi v) i) as [v_phi Hphi]; [lia|].
  destruct (lookup_lt_is_Some' (d_z v) i) as [v_z Hz]; [lia|].
  eexists _, _, v_r, v_phi, v_z.
  split; [exact Hrun|]. simpl frames. rewrite lookup_last.
  destruct (with_velocities_columns v c (frames w !!! df)) as (Ar & Aphi & Az & At & _).
  unfold cell_at. rewrite Ar, Aphi, Az, At. simpl.
  repeat split; try done. by apply zip_with3_lookup.
Qed.

Lemma converted_rows_carry_library_velocities_witness :
  let w := holding (table_of [star_a; star_no_rv]) in
  let E := mock_env (inl "offline") in
  let v := {| d_rho := [4; nan]; rho_d_phi := [0; 5]; d_z := [3; 3] |}%float in
  0 < length (frames w) /\
  well_formed (frames w !!! 0) = true /\
  converts E w 0 v /\
  0 < nrows (frames w !!! 0) /\
  exists a w' v_r v_phi v_z,
    _add_galactic_velocities E 0 w = (Ok a, w') /\
    d_rho v !! 0 = Some v_r /\
    rho_d_phi v !! 0 = Some v_phi /\
    d_z v !! 0 = Some v_z /\
    cell_at (frames w' !!! a) "V_R" 0 = Some v_r /\
    cell_at (frames w' !!! a) "V_phi" 0 = Some v_phi /\
    cell_at (frames w' !!! a) "V_z" 0 = Some v_z /\
    cell_at (frames w' !!! a) "v_total" 0 = Some (norm3 v_r v_phi v_z).
Proof.
  intros w E v.
  assert (H1 : 0 < length (frames w)) by (simpl; lia).
  assert (H2 : well_formed (frames w !!! 0) = true) by reflexivity.
  assert (H3 : converts E w 0 v) by (repeat split).
  assert (H4 : 0 < nrows (frames w !!! 0)) by (simpl; lia).
  split; [exact H1|]. split; [exact H2|]. split; [exact H3|]. split; [exact H4|].
  exact (converted_rows_carry_library_velocities E w 0 v 0 H1 H2 H3 H4).
Defined.

(** Claim C1 fails as stated.  First table: row 0 has parallax 2 > 0 and
    radial velocity 4, row 1 has parallax -1; the frame library refuses the
    batch and row 0 gets NaN in all four columns.  Second table: one row
    with parallax 2 and radial velocity 4 but no proper motion in right
    ascension; the batch is converted (nothing is printed) and the row's
    [V_phi] and [v_total] are NaN. *)
Lemma good_row_without_velocities :
  let t := table_of [star_a; star_negative_parallax] in
  let t' := table_of [star_no_pm] in
  (cell_at t "parallax" 0 = Some 2%float /\ PrimFloat.ltb 0 2 = true /\
   cell_at t "radial_velocity" 0 = Some 4%float /\ PrimFloat.is_nan 4 = false /\
   exists a w',
     _add_galactic_velocities (mock_env (inl "offline")) 0 (holding t) = (Ok a, w') /\
     cell_at (frames w' !!! a) "V_R" 0 = Some nan /\
     cell_at (frames w' !!! a) "V_phi" 0 = Some nan /\
     cell_at (frames w' !!! a) "V_z" 0 = Some nan /\
     cell_at (frames w' !!! a) "v_total" 0 = Some nan) /\
  (cell_at t' "parallax" 0 = Some 2%float /\
   cell_at t' "radial_velocity" 0 = Some 4%float /\
   exists a w',
     _add_galactic_velocities (mock_env (inl "offline")) 0 (holding t') = (Ok a, w') /\
     stdout w' = [] /\
     cell_at (frames w' !!! a) "V_phi" 0 = Some nan /\
     cell_at (frames w' !!! a) "v_total" 0 = Some nan) /\
  PrimFloat.is_nan nan = true.
Proof.
  repeat split; try reflexivity.
  - eexists _, _. split; [vm_compute; reflexivity|]. repeat split.
  - eexists _, _. split; [vm_compute; reflexivity|]. repeat split.
Qed.




(** In a converted batch a single row can hold NaN: the frame library's own
    value for that row.  The first row of this batch has numbers in every
    derived column; the second, whose radial velocity is missing, has NaN in
    [V_R] and [v_total] and the number 0.5 in [distance_kpc]. *)
Lemma converted_batch_with_one_missing_row :
  let t := table_of [star_a; star_no_rv] in
  PrimFloat.is_nan nan = true /\
  exists a w',
    _add_galactic_velocities (mock_env (inl "offline")) 0 (holding t) = (Ok a, w') /\
    cell_at (frames w' !!! a) "V_R" 0 = Some 4%float /\
    cell_at (frames w' !!! a) "v_total" 0 = Some 5%float /\
    cell_at (frames w' !!! a) "distance_kpc" 0 = Some 0.5%float /\
    cell_at (frames w' !!! a) "V_R" 1 = Some nan /\
    cell_at (frames w' !!! a) "v_total" 1 = Some nan /\
    cell_at (frames w' !!! a) "distance_kpc" 1 = Some 0.5%float.
Proof.
  split; [reflexivity|]. eexists _, _. split; [vm_compute; reflexivity|].
  repeat split.
Qed.



(** Claim C8 fails on the handler.  The caller's table sits at address 0 and
    has no [V_R] column; its second row has a negative parallax, so the
    frame library raises before line 419.  The transform returns address 0
    itself, no table was allocated, and the caller's table now carries the
    five NaN columns. *)
Theorem handler_writes_into_the_callers_table :
  let t := table_of [star_a; star_negative_parallax] in
  exists w',
    _add_galactic_velocities (mock_env (inl "offline")) 0 (holding t) = (Ok 0, w') /\
    length (frames w') = 1 /\
    frames w' !!! 0 = filled t /\
    col_lookup "V_R" (columns t) = None /\
    col_lookup "V_R" (columns (frames w' !!! 0)) = Some (FloatCol [nan; nan]).
Proof. eexists. split; [vm_compute; reflexivity|]. repeat split. Qed.

(** The other paths leave the caller's table as it was. *)
Lemma converted_run_keeps_the_callers_table E w df v :
  df < length (frames w) ->
  nrows (frames w !!! df) <> 0 ->
  well_formed (frames w !!! df) = true ->
  converts E w df v ->
  exists a w',
    _add_galactic_velocities E df w = (Ok a, w') /\
    a <> df /\ frames w' !!! df = frames w !!! df.
Proof.
  intros Hdf Hn Hwf Hconv.
  destruct (add_galactic_velocities_converted E w df v Hdf Hn Hwf Hconv)
    as (c & _ & Hrun).
  eexists _, _. split; [exact Hrun|]. split; [lia|].
  simpl. by rewrite lookup_total_app_l.
Qed.

Lemma getitem_mask_keeps_the_callers_table df mask w :
  df < length (frames w) ->
  exists a w',
    getitem_mask df mask w = (Ok a, w') /\
    a <> df /\ frames w' !!! df = frames w !!! df.
Proof.
  intros Hdf. eexists _, _. split; [reflexivity|]. split; [lia|].
  simpl. by rewrite lookup_total_app_l.
Qed.

(** ** The search operations *)

Lemma execute_adql_run E q w :
  execute_adql E q w =
  match launch_job E q with
  | inl msg =>
      (Raise (RuntimeError ("ADQL query failed: " +:+ msg)),
       with_launched (launched w ++ [q]) w)
  | inr d => (Ok (length (results w)), answered q d w)
  end.
Proof.
  unfold execute_adql, try_except, fetch.
  rewrite !bind_run. unfold submit at 1. cbv beta iota.
  destruct (launch_job E q) as [msg|d]; [reflexivity|].
  unfold new_frame at 1. cbv beta iota.
  rewrite bind_run. unfold len at 1. rewrite bind_run. unfold read_frame at 1, ret at 1.
  cbv beta iota. simpl frames. rewrite lookup_last.
  reflexivity.
Qed.

(** Claim C9.  [execute_adql] is atomic with respect to the cached last
    result.  If the archive call or the conversion fails, a single
    [RuntimeError] carrying the underlying message is raised and the stored
    last result, the result objects and the tables are unchanged.  On
    success the stored last result is the new [QueryResult], which holds the
    query text and the row count of the answer. *)
Theorem execute_adql_is_atomic E q w :
  match execute_adql E q w with
  | (Raise e, w') =>
      (exists msg,
         launch_job E q = inl msg /\
         e = RuntimeError ("ADQL query failed: " +:+ msg)) /\
      get_last_result w' = (Ok (_last_result w), w') /\
      results w' = results w /\
      frames w' = frames w
  | (Ok r, w') =>
      exists d,
        launch_job E q = inr d /\
        get_last_result w' = (Ok (Some r), w') /\
        r = length (results w) /\
        results w' = (results w ++ [fresh_result q d w])%list /\
        frames w' = (frames w ++ [d])%list
  end.
Proof.
  rewrite execute_adql_run. destruct (launch_job E q) as [msg|d].
  - split; [by exists msg | done].
  - by exists d.
Qed.

Lemma execute_adql_consistent E q w r w' :
  execute_adql E q w = (Ok r, w') -> consistent w' r.
Proof.
  rewrite execute_adql_run. destruct (launch_job E q) as [msg|d]; [done|].
  intros [= <- <-]. unfold consistent, answered. simpl.
  rewrite lookup_last_result. simpl. rewrite lookup_last.
  rewrite !length_app. simpl. repeat split; lia.
Qed.

Lemma bind_ok {A B} (m : M A) (k : A -> M B) w b w' :
  bind m k w = (Ok b, w') ->
  exists a w1, m w = (Ok a, w1) /\ k a w1 = (Ok b, w').
Proof.
  rewrite bind_run. destruct (m w) as [[a|e] w1]; [|done]. intros H. by exists a, w1.
Qed.

Lemma set_description_consistent r s w u w' :
  consistent w r -> set_description r s w = (Ok u, w') -> consistent w' r.
Proof.
  intros (Hr & Hd & Hn). intros [= _ <-]. unfold consistent. simpl.
  rewrite length_insert, list_lookup_total_insert_eq by done. simpl. done.
Qed.

(** [result.row_count = len(result.data)] *)
Lemma recount_consistent r w u w' :
  r < length (results w) ->
  data (results w !!! r) < length (frames w) ->
  (df <- get_data r ;;
   n <- len df ;;
   set_row_count r n) w = (Ok u, w') ->
  consistent w' r.
Proof.
  intros Hr Ha. unfold get_data, len, set_row_count.
  unfold bind, read_result, write_result, read_frame, ret. simpl.
  intros [= _ <-]. unfold consistent. simpl.
  rewrite !length_insert, list_lookup_total_insert_eq by done.
  simpl. done.
Qed.

(** What the velocity transform does to the store. *)
Lemma add_galactic_velocities_store E df w :
  df < length (frames w) ->
  exists a w',
    _add_galactic_velocities E df w = (Ok a, w') /\
    a < length (frames w') /\
    results w' = results w /\
    _last_result w' = _last_result w /\
    launched w' = launched w.
Proof.
  intros Hdf.
  destruct (add_galactic_velocities_course E df w Hdf); eexists _, _;
    (split; [reflexivity|]); simpl;
    rewrite ?length_insert, ?length_app; simpl; repeat split; lia.
Qed.

Lemma get_data_run r w : get_data r w = (Ok (data (results w !!! r)), w).
Proof. reflexivity. Qed.

Lemma len_run a w : len a w = (Ok (nrows (frames w !!! a)), w).
Proof. reflexivity. Qed.

Lemma set_data_run r a w :
  set_data r a w
  = (Ok tt,
     with_results
       (<[r := {| data := a; query := query (results w !!! r);
                  row_count := row_count (results w !!! r);
                  description := description (results w !!! r) |}]> (results w)) w).
Proof. reflexivity. Qed.

Lemma getitem_mask_run a mask w :
  getitem_mask a mask w
  = (Ok (length (frames w)), with_frames (frames w ++ [select mask (frames w !!! a)]) w).
Proof. reflexivity. Qed.

Lemma getitem_mask_head_run a mask n w :
  getitem_mask_head a mask n w
  = (Ok (length (frames w)),
     with_frames (frames w ++ [head n (select mask (frames w !!! a))]) w).
Proof. reflexivity. Qed.

(** The step shared by the three kinematic searches: the table of the
    result is replaced by its transform. *)
Lemma transform_step E r w :
  r < length (results w) ->
  data (results w !!! r) < length (frames w) ->
  exists w2,
    r < length (results w2) /\
    data (results w2 !!! r) < length (frames w2) /\
    forall B (K : M B),
      (df <- get_data r ;;
       df' <- _add_galactic_velocities E df ;;
       set_data r df' ;;;
       K) w = K w2.
Proof.
  intros Hr Hd.
  destruct (add_galactic_velocities_store E _ w Hd) as (a & w1 & Hrun & Ha & Hres & _).
  eexists. split; [|split]; [| |intros B K].
  3:{ rewrite bind_run, get_data_run. cbv beta iota.
      rewrite bind_run, Hrun. cbv beta iota.
      rewrite bind_run, set_data_run. cbv beta iota.
      reflexivity. }
  - simpl. rewrite length_insert. congruence.
  - simpl. rewrite list_lookup_total_insert_eq by congruence. done.
Qed.

(** [result.data = <a new table>] keeps the result object in the store and
    points it at a table that exists. *)
Lemma set_data_new_frame r d w :
  r < length (results w) ->
  let w1 := with_frames (frames w ++ [d]) w in
  let w2 := (set_data r (length (frames w)) w1).2 in
  r < length (results w2) /\ data (results w2 !!! r) < length (frames w2).
Proof.
  intros Hr. simpl. rewrite length_insert, list_lookup_total_insert_eq by done.
  simpl. rewrite length_app. simpl. lia.
Qed.

Lemma search_hypervelocity_stars_consistent E dk mv limit w r w' :
  search_hypervelocity_stars E dk mv limit w = (Ok r, w') -> consistent w' r.
Proof.
  unfold search_hypervelocity_stars. cbv zeta.
  intros H.
  apply bind_ok in H as (mp & w1 & _ & H).
  apply bind_ok in H as (r0 & w2 & Hq & H).
  apply execute_adql_consistent in Hq.
  rewrite bind_run, get_data_run in H. cbv beta iota in H.
  rewrite bind_run, len_run in H. cbv beta iota in H.
  apply bind_ok in H as ([] & w3 & Hblock & H).
  apply bind_ok in H as ([] & w4 & Hdesc & H).
  injection H as <- <-.
  eapply set_description_consistent; [|exact Hdesc].
  destruct (Nat.ltb 0 _).
  - destruct Hq as (Hr & Hd & _).
    destruct (transform_step E r0 w2 Hr Hd) as (w5 & Hr5 & Hd5 & Hstep).
    rewrite Hstep in Hblock.
    rewrite bind_run, get_data_run in Hblock. cbv beta iota in Hblock.
    rewrite bind_run, getitem_run in Hblock.
    destruct (col_lookup _ _); [|done].
    rewrite bind_run, getitem_mask_run in Hblock. cbv beta iota in Hblock.
    rewrite bind_run, set_data_run in Hblock. cbv beta iota in Hblock.
    apply recount_consistent in Hblock; [done| |]; by apply set_data_new_frame.
  - by injection Hblock as <-.
Qed.

Lemma stream_filter_allocates name c :
  _get_stream_criteria name = Some c ->
  exists f,
    velocity_filter c = Some f /\
    forall a w a' w1,
      f a w = (Ok a', w1) ->
      exists d, a' = length (frames w) /\ w1 = with_frames (frames w ++ [d]) w.
Proof.
  unfold _get_stream_criteria, streams. cbn [dict_get].
  repeat (destruct (String.eqb _ name); [intros [= <-]; eexists; split; [reflexivity|] |]);
    [ .. | done ];
    intros a w a' w1;
    unfold nyx_filter, gse_filter, helmi_filter, sequoia_filter;
    repeat (rewrite bind_run, getitem_run; destruct (col_lookup _ _); [|done]);
    rewrite getitem_mask_run; intros [= <- <-]; by eexists.
Qed.

Lemma search_stellar_stream_consistent E name limit w r w' :
  search_stellar_stream E name limit w = (Ok r, w') -> consistent w' r.
Proof.
  unfold search_stellar_stream. cbv zeta.
  destruct (_get_stream_criteria (lower E name)) as [c|] eqn:Hc; [|done].
  destruct (stream_filter_allocates _ _ Hc) as (f & Hf & Halloc).
  rewrite Hf. intros H.
  apply bind_ok in H as (r0 & w2 & Hq & H).
  apply execute_adql_consistent in Hq.
  rewrite bind_run, get_data_run in H. cbv beta iota in H.
  rewrite bind_run, len_run in H. cbv beta iota in H.
  apply bind_ok in H as ([] & w3 & Hblock & H).
  apply bind_ok in H as ([] & w4 & Hdesc & H).
  injection H as <- <-.
  eapply set_description_consistent; [|exact Hdesc].
  destruct (Nat.ltb 0 _).
  - destruct Hq as (Hr & Hd & _).
    destruct (transform_step E r0 w2 Hr Hd) as (w5 & Hr5 & Hd5 & Hstep).
    rewrite Hstep in Hblock.
    rewrite bind_run, get_data_run in Hblock. cbv beta iota in Hblock.
    apply bind_ok in Hblock as (a' & w6 & Hfrun & Hblock).
    apply Halloc in Hfrun as (d & -> & ->).
    rewrite bind_run, set_data_run in Hblock. cbv beta iota in Hblock.
    apply recount_consistent in Hblock; [done| |]; by apply set_data_new_frame.
  - by injection Hblock as <-.
Qed.

Lemma search_accreted_halo_consistent E retro limit w r w' :
  search_accreted_halo E retro limit w = (Ok r, w') -> consistent w' r.
Proof.
  unfold search_accreted_halo. cbv zeta.
  intros H.
  apply bind_ok in H as (r0 & w2 & Hq & H).
  apply execute_adql_consistent in Hq.
  rewrite bind_run, get_data_run in H. cbv beta iota in H.
  rewrite bind_run, len_run in H. cbv beta iota in H.
  apply bind_ok in H as ([] & w3 & Hblock & H).
  apply bind_ok in H as ([] & w4 & Hdesc & H).
  injection H as <- <-.
  eapply set_description_consistent; [|exact Hdesc].
  destruct (Nat.ltb 0 _).
  - destruct Hq as (Hr & Hd & _).
    destruct (transform_step E r0 w2 Hr Hd) as (w5 & Hr5 & Hd5 & Hstep).
    rewrite Hstep in Hblock.
    apply bind_ok in Hblock as ([] & w6 & Hpick & Hblock).
    assert (r0 < length (results w6) /\ data (results w6 !!! r0) < length (frames w6))
      as [Hr6 Hd6].
    { destruct retro;
        rewrite bind_run, get_data_run in Hpick; cbv beta iota in Hpick;
        repeat (rewrite bind_run, getitem_run in Hpick;
                destruct (col_lookup _ _); [|done]);
        rewrite bind_run, getitem_mask_head_run in Hpick; cbv beta iota in Hpick;
        rewrite set_data_run in Hpick; injection Hpick as <-;
        by apply set_data_new_frame. }
    by apply recount_consistent in Hblock.
  - by injection Hblock as <-.
Qed.

Lemma search_cone_consistent E ra dec radius limit w r w' :
  search_cone E ra dec radius limit w = (Ok r, w') -> consistent w' r.
Proof.
  unfold search_cone. cbv zeta. intros H.
  apply bind_ok in H as (r0 & w2 & Hq & H).
  apply execute_adql_consistent in Hq.
  apply bind_ok in H as ([] & w4 & Hdesc & H).
  injection H as <- <-.
  by eapply set_description_consistent.
Qed.

Lemma search_solar_neighborhood_consistent E distance_pc limit w r w' :
  search_solar_neighborhood E distance_pc limit w = (Ok r, w') -> consistent w' r.
Proof.
  unfold search_solar_neighborhood. cbv zeta. intros H.
  apply bind_ok in H as (mp & w1 & _ & H).
  apply bind_ok in H as (r0 & w2 & Hq & H).
  apply execute_adql_consistent in Hq.
  apply bind_ok in H as ([] & w4 & Hdesc & H).
  injection H as <- <-.
  by eapply set_description_consistent.
Qed.

(** Claim C10.  Whenever one of the six public operations returns a result
    object, that object and its table exist and its [row_count] is the
    number of rows of the table, also after the post-fetch selection. *)
Theorem row_count_is_table_length E c w r w' :
  perform E c w = (Ok r, w') ->
  exists q d,
    results w' !! r = Some q /\
    frames w' !! data q = Some d /\
    row_count q = nrows d.
Proof.
  intros H.
  assert (Hc : consistent w' r).
  { destruct c; simpl in H.
    - by eapply execute_adql_consistent.
    - by eapply search_cone_consistent.
    - by eapply search_solar_neighborhood_consistent.
    - by eapply search_hypervelocity_stars_consistent.
    - by eapply search_stellar_stream_consistent.
    - by eapply search_accreted_halo_consistent. }
  destruct Hc as (Hr & Hd & Hn).
  exists (results w' !!! r), (frames w' !!! data (results w' !!! r)).
  split; [|split]; [| |done]; by apply list_lookup_lookup_total_lt.
Qed.

Lemma unsupported_key (key s : string) :
  (forall s, s ∈ supported_streams -> key <> ascii_lower s) ->
  s ∈ supported_streams ->
  String.eqb (ascii_lower s) key = false.
Proof.
  intros Hunknown Hs. apply String.eqb_neq. intros Hk.
  by apply (Hunknown s Hs).
Qed.

(** Claim C3.  For a stream key that matches none of Nyx, GSE,
    Gaia-Sausage-Enceladus, Helmi, Sequoia when case is ignored,
    [search_stellar_stream] raises a [ValueError] whose message names the
    key, in the lower case [str.lower] gave it, and lists the supported
    keys; the world is unchanged, so no query went to the archive.  The key
    is lowered by [lower E], Python's own [str.lower], whatever characters
    it holds; the five listed names are ASCII, where lowering is
    [ascii_lower]. *)
Theorem unknown_stream_is_rejected E name limit w :
  (forall s, s ∈ supported_streams -> lower E name <> ascii_lower s) ->
  search_stellar_stream E name limit w
  = (Raise (ValueError
              ("Unknown stream: " +:+ lower E name +:+ ". "
                 +:+ "Supported: Nyx, GSE, Gaia-Sausage-Enceladus, Helmi, Sequoia")),
     w).
Proof.
  intros Hunknown. unfold search_stellar_stream. cbv zeta.
  assert (Hnone : _get_stream_criteria (lower E name) = None).
  { unfold _get_stream_criteria, streams. cbn [dict_get].
    assert (Hin : forall s, s ∈ supported_streams ->
                    String.eqb (ascii_lower s) (lower E name) = false)
      by (intros s; by apply unsupported_key).
    assert (H1 := Hin "Nyx"). assert (H2 := Hin "GSE").
    assert (H3 := Hin "Gaia-Sausage-Enceladus").
    assert (H4 := Hin "Helmi"). assert (H5 := Hin "Sequoia").
    change (ascii_lower "Nyx") with "nyx" in H1.
    change (ascii_lower "GSE") with "gse" in H2.
    change (ascii_lower "Gaia-Sausage-Enceladus") with "gaia-sausage-enceladus" in H3.
    change (ascii_lower "Helmi") with "helmi" in H4.
    change (ascii_lower "Sequoia") with "sequoia" in H5.
    rewrite H1, H2, H3, H4, H5;
      try (unfold supported_streams; solve [repeat constructor]); reflexivity. }
  by rewrite Hnone.
Qed.

Lemma unknown_stream_is_rejected_witness :
  let E := mock_env (inl "offline") in
  (forall s, s ∈ supported_streams -> lower E "Andromeda" <> ascii_lower s) /\
  search_stellar_stream E "Andromeda" None boot
  = (Raise (ValueError
              ("Unknown stream: " +:+ lower E "Andromeda" +:+ ". "
                 +:+ "Supported: Nyx, GSE, Gaia-Sausage-Enceladus, Helmi, Sequoia")),
     boot).
Proof.
  intros E.
  assert (H : forall s, s ∈ supported_streams -> lower E "Andromeda" <> ascii_lower s).
  { intros s Hs. unfold supported_streams in Hs.
    repeat (apply elem_of_cons in Hs as [-> | Hs]; [discriminate|]).
    by apply elem_of_nil in Hs. }
  split; [exact H|].
  exact (unknown_stream_is_rejected E "Andromeda" None boot H).
Defined.

(** Claim C4.  [search_solar_neighborhood] with a distance of zero (+0.0 or
    -0.0) raises at the division, before any query text exists; the world
    is unchanged, so nothing went to the archive and no infinite or NaN
    threshold was produced. *)
Theorem zero_distance_is_rejected E distance_pc limit w :
  PrimFloat.eqb distance_pc 0 = true ->
  search_solar_neighborhood E distance_pc limit w
  = (Raise (ZeroDivisionError "float division by zero"), w).
Proof.
  intros Hzero. unfold search_solar_neighborhood. cbv zeta.
  rewrite bind_run. unfold truediv. by rewrite Hzero.
Qed.

Lemma zero_distance_is_rejected_witness :
  let E := mock_env (inr (table_of [])) in
  PrimFloat.eqb 0 0 = true /\
  search_solar_neighborhood E 0 None boot
  = (Raise (ZeroDivisionError "float division by zero"), boot).
Proof.
  intros E.
  assert (H : PrimFloat.eqb 0 0 = true) by reflexivity.
  split; [exact H|].
  exact (zero_distance_is_rejected E 0%float None boot H).
Defined.

(** ** Masks *)

Lemma keep_fmap {A B} (f : A -> B) mask (xs : list A) :
  keep mask (f <$> xs) = f <$> keep mask xs.
Proof.
  revert xs. induction mask as [|b mask IH]; intros [|x xs]; simpl; try done.
  destruct b; simpl; by rewrite IH.
Qed.

Lemma keep_length_le {A} mask (xs : list A) :
  length (keep mask xs) <= length (keep mask (replicate (length mask) tt)).
Proof.
  revert xs. induction mask as [|b mask IH]; intros [|x xs]; simpl; try lia.
  destruct b; simpl; specialize (IH xs); lia.
Qed.

Lemma keep_mask_or {A} (m0 m1 : list bool) (xs : list A) x :
  length m0 = length m1 ->
  x ∈ keep m1 xs -> x ∈ keep (mask_or m0 m1) xs.
Proof.
  unfold mask_or. revert m1 xs.
  induction m0 as [|b0 m0 IH]; intros [|b1 m1] [|y xs]; simpl; try done.
  intros [= Hlen]. destruct b1, b0; simpl.
  - intros [->|Hin]%elem_of_cons; [left | right; by apply IH].
  - intros [->|Hin]%elem_of_cons; [left | right; by apply IH].
  - intros Hin. right. by apply IH.
  - by apply IH.
Qed.

Lemma np_abs_length c : length (values (np_abs c)) = length (values c).
Proof. destruct c; simpl; by rewrite !length_fmap. Qed.

Lemma halo_mask_length retro c : length (halo_mask retro c) = length (values c).
Proof.
  unfold halo_mask, mask_or, lt. destruct retro.
  - by rewrite length_fmap.
  - rewrite length_zip_with, !length_fmap, np_abs_length. lia.
Qed.

Lemma halo_mask_weakens c (xs : list cell) x :
  x ∈ keep (halo_mask true c) xs -> x ∈ keep (halo_mask false c) xs.
Proof.
  unfold halo_mask. apply keep_mask_or.
  unfold lt. by rewrite !length_fmap, np_abs_length.
Qed.

(** ** The [source_id] column of a selection *)

Lemma col_lookup_fmap (f : column -> column) name cs :
  col_lookup name (prod_map id f <$> cs) = f <$> col_lookup name cs.
Proof.
  induction cs as [|[k c] cs IH]; simpl; [done|].
  by destruct (String.eqb k name).
Qed.

Lemma cells_keep mask c : cells (col_keep mask c) = keep mask (cells c).
Proof. destruct c; simpl; by rewrite keep_fmap. Qed.

Lemma cells_take n c : cells (col_take n c) = take n (cells c).
Proof. destruct c; simpl; by rewrite fmap_take. Qed.

Lemma source_ids_head_select n mask d :
  source_ids (head n (select mask d))
  = take (head_count n (nrows (select mask d))) (keep mask (source_ids d)).
Proof.
  unfold source_ids. simpl columns. rewrite !col_lookup_fmap.
  destruct (col_lookup "source_id" (columns d)) as [c|]; simpl.
  - by rewrite cells_take, cells_keep.
  - assert (keep mask (@nil cell) = []) as -> by (by destruct mask).
    by rewrite take_nil.
Qed.

Lemma head_count_all (n : Z) len :
  (Z.of_nat (head_count n len) < n)%Z -> head_count n len = len.
Proof. unfold head_count. destruct (0 <=? n)%Z eqn:Hn; lia. Qed.

(** A selection by a mask as long as the index, not cut by the limit, holds
    every selected row. *)
Lemma source_ids_uncut n mask d :
  length mask = nrows d ->
  (Z.of_nat (nrows (head n (select mask d))) < n)%Z ->
  source_ids (head n (select mask d)) = keep mask (source_ids d).
Proof.
  intros Hlen Hcut. rewrite source_ids_head_select.
  change (nrows (head n (select mask d)))
    with (head_count n (nrows (select mask d))) in Hcut.
  apply head_count_all in Hcut. rewrite Hcut.
  apply take_ge. simpl. rewrite <- Hlen. apply keep_length_le.
Qed.

(** ** The accreted-halo search *)

(** After the transform of a table with rows, [V_phi] is a column as long as
    the index. *)
Lemma add_galactic_velocities_v_phi E df w :
  df < length (frames w) ->
  nrows (frames w !!! df) <> 0 ->
  exists a w' c,
    _add_galactic_velocities E df w = (Ok a, w') /\
    a < length (frames w') /\
    results w' = results w /\
    col_lookup "V_phi" (columns (frames w' !!! a)) = Some c /\
    length (values c) = nrows (frames w' !!! a).
Proof.
  intros Hdf Hn.
  destruct (add_galactic_velocities_course E df w Hdf)
    as [H0|e _ He|v e d' _ Hv _ [Hrows _]|v c _ (_ & _ & Hphi & _) Hc _];
    [contradiction | | | ].
  - eexists _, _, _. split; [reflexivity|].
    rewrite update_frame_read, update_frame_length by done.
    split; [done|]. split; [done|]. split.
    + apply filled_lookup. unfold derived_columns. solve [repeat constructor].
    + simpl. by rewrite length_replicate.
  - eexists _, _, _. split; [reflexivity|]. simpl frames. rewrite lookup_last.
    rewrite length_app. simpl. split; [lia|]. split; [done|]. split.
    + apply filled_lookup. unfold derived_columns. solve [repeat constructor].
    + simpl. by rewrite length_replicate.
  - eexists _, _, _. split; [reflexivity|]. simpl frames. rewrite lookup_last.
    rewrite length_app. simpl. split; [lia|]. split; [done|].
    destruct (with_velocities_columns v c (frames w !!! df)) as (_ & Hcol & _).
    split; [exact Hcol|]. simpl. done.
Qed.

(** The table [search_accreted_halo] returns, for both values of the flag:
    either the untouched empty answer, or the cut selection of one and the
    same transformed table. *)
Lemma search_accreted_halo_table E limit w :
  exists t : bool -> DataFrame,
    (forall retro r w',
       search_accreted_halo E retro limit w = (Ok r, w') ->
       table_of_result w' r = t retro) /\
    (t true = t false \/
     exists d c,
       length (values c) = nrows d /\
       forall retro,
         t retro
         = head (or_default limit (default_results E)) (select (halo_mask retro c) d)).
Proof.
  unfold search_accreted_halo. cbv zeta.
  set (L := or_default limit (default_results E)).
  set (q := accreted_halo_query E (L * 2)).
  destruct (launch_job E q) as [msg|d0] eqn:Hjob.
  { exists (fun _ => inhabitant). split; [|by left].
    intros retro r w'. rewrite bind_run, execute_adql_run, Hjob. done. }
  destruct (Nat.ltb 0 (nrows d0)) eqn:Hrows.
  2:{ exists (fun _ => d0). split; [|by left].
      intros retro r w'. rewrite bind_run, execute_adql_run, Hjob. cbv beta iota.
      rewrite bind_run, get_data_run. cbv beta iota.
      rewrite bind_run, len_run. cbv beta iota.
      simpl results. rewrite lookup_last_result. simpl data.
      simpl frames. rewrite lookup_last. rewrite Hrows.
      intros [= <- <-]. unfold table_of_result. simpl.
      rewrite list_lookup_total_insert_eq by (rewrite length_app; simpl; lia).
      simpl. rewrite lookup_last_result. apply lookup_last. }
  apply Nat.ltb_lt in Hrows.
  set (w2 := answered q d0 w).
  assert (Hr : length (results w) < length (results w2))
    by (simpl; rewrite length_app; simpl; lia).
  assert (Hdata : data (results w2 !!! length (results w)) = length (frames w))
    by (simpl; by rewrite lookup_last_result).
  assert (Hd : length (frames w) < length (frames w2))
    by (simpl; rewrite length_app; simpl; lia).
  assert (Hd0 : frames w2 !!! length (frames w) = d0) by (simpl; apply lookup_last).
  destruct (add_galactic_velocities_v_phi E (length (frames w)) w2 Hd)
    as (a & w3 & c & Hrun & Ha & Hres & Hc & Hlen).
  { rewrite Hd0. lia. }
  exists (fun retro => head L (select (halo_mask retro c) (frames w3 !!! a))).
  split; [|right; exists (frames w3 !!! a), c; by split].
  intros retro r w'. rewrite bind_run, execute_adql_run, Hjob. cbv beta iota.
  fold w2.
  rewrite bind_run, get_data_run. cbv beta iota.
  rewrite bind_run, len_run. cbv beta iota.
  rewrite Hdata, Hd0.
  assert (Nat.ltb 0 (nrows d0) = true) as -> by by apply Nat.ltb_lt.
  rewrite bind_run, bind_run, get_data_run. cbv beta iota.
  rewrite Hdata, bind_run, Hrun. cbv beta iota.
  rewrite bind_run, set_data_run. cbv beta iota.
  set (w4 := with_results _ w3).
  assert (Hget : data (results w4 !!! length (results w)) = a).
  { subst w4. simpl. rewrite list_lookup_total_insert_eq by congruence. done. }
  assert (Hrun4 :
    (if retro
     then
       df <- get_data (length (results w)) ;;
       v_phi <- getitem df "V_phi" ;;
       df' <- getitem_mask_head df (lt v_phi (-50)) L ;;
       set_data (length (results w)) df'
     else
       df <- get_data (length (results w)) ;;
       v_phi <- getitem df "V_phi" ;;
       v_phi' <- getitem df "V_phi" ;;
       df' <- getitem_mask_head df (mask_or (lt (np_abs v_phi) 100) (lt v_phi' (-50))) L ;;
       set_data (length (results w)) df') w4
    = set_data (length (results w)) (length (frames w4))
        (with_frames (frames w4 ++ [head L (select (halo_mask retro c) (frames w3 !!! a))]) w4)).
  { destruct retro;
      rewrite bind_run, get_data_run; cbv beta iota; rewrite Hget;
      repeat (rewrite bind_run, getitem_run; change (frames w4) with (frames w3);
              rewrite Hc; cbv beta iota);
      rewrite bind_run, getitem_mask_head_run; cbv beta iota; reflexivity. }
  rewrite bind_run, Hrun4, set_data_run. cbv beta iota.
  rewrite bind_run, get_data_run. cbv beta iota.
  rewrite bind_run, len_run. cbv beta iota.
  unfold set_row_count, set_description, ret, bind, read_result, write_result.
  intros [= <- <-]. unfold table_of_result. simpl.
  assert (Hr4 : length (results w) < length (results w3)) by congruence.
  rewrite !list_lookup_total_insert_eq by (rewrite ?length_insert; done).
  simpl. apply lookup_last.
Qed.

(** Claim C5, as amended.  For one archive answer and one limit, when the
    [retrograde_only=False] result holds fewer rows than the limit, every
    [source_id] of the [retrograde_only=True] result is also in the
    [retrograde_only=False] result. *)
Theorem retrograde_halo_within_uncut_halo E limit w r1 w1 r2 w2 :
  search_accreted_halo E true limit w = (Ok r1, w1) ->
  search_accreted_halo E false limit w = (Ok r2, w2) ->
  (Z.of_nat (nrows (table_of_result w2 r2)) < or_default limit (default_results E))%Z ->
  forall id,
    id ∈ source_ids (table_of_result w1 r1) ->
    id ∈ source_ids (table_of_result w2 r2).
Proof.
  intros Hretro Hall Hcut id.
  destruct (search_accreted_halo_table E limit w) as (t & Ht & Hshape).
  rewrite (Ht _ _ _ Hretro). rewrite (Ht _ _ _ Hall) in Hcut |- *.
  destruct Hshape as [-> | (d & c & Hlen & Hsel)]; [done|].
  rewrite (Hsel true). rewrite (Hsel false) in Hcut |- *.
  rewrite (source_ids_uncut _ _ _ (eq_trans (halo_mask_length false c) Hlen) Hcut).
  rewrite source_ids_head_select. intros Hin.
  apply halo_mask_weakens. by eapply subseteq_take.
Qed.

Lemma retrograde_halo_within_uncut_halo_witness :
  let E := mock_env (inr (table_of [star_a; star_retrograde; star_fast])) in
  let w1 := (search_accreted_halo E true (Some 5%Z) boot).2 in
  let w2 := (search_accreted_halo E false (Some 5%Z) boot).2 in
  search_accreted_halo E true (Some 5%Z) boot = (Ok 0, w1) /\
  search_accreted_halo E false (Some 5%Z) boot = (Ok 0, w2) /\
  (Z.of_nat (nrows (table_of_result w2 0)) < or_default (Some 5%Z) (default_results E))%Z /\
  forall id,
    id ∈ source_ids (table_of_result w1 0) ->
    id ∈ source_ids (table_of_result w2 0).
Proof.
  intros E w1 w2.
  assert (H1 : search_accreted_halo E true (Some 5%Z) boot = (Ok 0, w1))
    by (vm_compute; reflexivity).
  assert (H2 : search_accreted_halo E false (Some 5%Z) boot = (Ok 0, w2))
    by (vm_compute; reflexivity).
  assert (H3 : (Z.of_nat (nrows (table_of_result w2 0))
                < or_default (Some 5%Z) (default_results E))%Z)
    by (vm_compute; reflexivity).
  split; [exact H1|]. split; [exact H2|]. split; [exact H3|].
  exact (retrograde_halo_within_uncut_halo E (Some 5%Z) boot 0 w1 0 w2 H1 H2 H3).
Defined.

(** Claim C5 fails as stated.  With the answer (V_phi = 0, id 1), (V_phi =
    -60, id 2) and limit 1 the retrograde result is {2} and the other result
    is {1}: no subset.  With the single retrograde star as answer both
    results are {2}: a subset, but not a strict one. *)
Lemma retrograde_halo_not_a_strict_subset :
  let cut := mock_env (inr (table_of [star_a; star_retrograde])) in
  let all_retrograde := mock_env (inr (table_of [star_retrograde])) in
  (exists r1 w1 r2 w2,
     search_accreted_halo cut true (Some 1%Z) boot = (Ok r1, w1) /\
     search_accreted_halo cut false (Some 1%Z) boot = (Ok r2, w2) /\
     source_ids (table_of_result w1 r1) = [Int 2] /\
     source_ids (table_of_result w2 r2) = [Int 1] /\
     ~ strict_subset (source_ids (table_of_result w1 r1))
                     (source_ids (table_of_result w2 r2))) /\
  (exists r1 w1 r2 w2,
     search_accreted_halo all_retrograde true (Some 1%Z) boot = (Ok r1, w1) /\
     search_accreted_halo all_retrograde false (Some 1%Z) boot = (Ok r2, w2) /\
     source_ids (table_of_result w1 r1) = [Int 2] /\
     source_ids (table_of_result w2 r2) = [Int 2] /\
     ~ strict_subset (source_ids (table_of_result w1 r1))
                     (source_ids (table_of_result w2 r2))).
Proof.
  split.
  - eexists _, _, _, _. split; [vm_compute; reflexivity|].
    split; [vm_compute; reflexivity|].
    split; [reflexivity|]. split; [reflexivity|].
    intros [Hsub _]. specialize (Hsub (Int 2)).
    assert (Hin : Int 2 ∈ [Int 1]) by (apply Hsub; vm_compute; left).
    apply list_elem_of_singleton in Hin. discriminate.
  - eexists _, _, _, _. split; [vm_compute; reflexivity|].
    split; [vm_compute; reflexivity|].
    split; [reflexivity|]. split; [reflexivity|].
    intros [_ (y & Hy & Hny)]. apply Hny. exact Hy.
Qed.

Lemma row_count_is_table_length_witness :
  let E := mock_env (inr (table_of [star_a; star_fast])) in
  let c := SearchHypervelocityStars 5 300 None in
  let w' := (perform E c boot).2 in
  perform E c boot = (Ok 0, w') /\
  exists q d,
    results w' !! 0 = Some q /\
    frames w' !! data q = Some d /\
    row_count q = nrows d.
Proof.
  intros E c w'.
  assert (H : perform E c boot = (Ok 0, w')) by (vm_compute; reflexivity).
  split; [exact H|].
  exact (row_count_is_table_length E c boot 0 w' H).
Defined.

(** ** What the velocity transform keeps *)

Lemma filled_has_velocities d : has_velocities (filled d).
Proof.
  intros name Hname. eexists. split; [by apply filled_lookup|].
  by rewrite length_replicate.
Qed.

Lemma filled_all_missing d : all_missing (filled d).
Proof. intros name Hname. exact (filled_lookup d name Hname). Qed.

Lemma with_velocities_has_velocities v c d :
  length (d_rho v) = nrows d ->
  length (rho_d_phi v) = nrows d ->
  length (d_z v) = nrows d ->
  length (values c) = nrows d ->
  has_velocities (with_velocities v c d).
Proof.
  intros H1 H2 H3 H4 name Hname.
  destruct (with_velocities_columns v c d) as (Ar & Aphi & Az & At & Ad).
  unfold derived_columns in Hname.
  repeat (apply elem_of_cons in Hname as [-> | Hname]);
    [ .. | by apply elem_of_nil in Hname ]; eexists; (split; [eassumption|]).
  - done.
  - done.
  - done.
  - by apply zip_with3_length.
  - by rewrite length_fmap.
Qed.

(** What the transform keeps, whatever course it takes. *)
Lemma add_galactic_velocities_keeps E w df :
  df < length (frames w) ->
  nrows (frames w !!! df) <> 0 ->
  exists a w',
    _add_galactic_velocities E df w = (Ok a, w') /\
    a < length (frames w') /\
    (a = df \/ a = length (frames w)) /\
    agree (frames w !!! df) (frames w' !!! a) /\
    has_velocities (frames w' !!! a) /\
    (forall b, b < length (frames w) -> b <> df -> frames w' !!! b = frames w !!! b) /\
    results w' = results w /\
    _last_result w' = _last_result w /\
    launched w' = launched w.
Proof.
  intros Hdf Hn.
  destruct (add_galactic_velocities_course E df w Hdf)
    as [H0|e _ He|v e d' _ Hv _ Hagree|v c _ (Hv & H1 & H2 & H3) Hc Hlen];
    [contradiction | | | ]; eexists _, _; (split; [reflexivity|]).
  - rewrite update_frame_read, update_frame_length by done.
    split; [done|]. split; [by left|].
    split; [apply agree_filled|]. split; [apply filled_has_velocities|].
    split; [|done]. intros b Hb Hne. simpl. by rewrite list_lookup_total_insert_ne.
  - simpl frames. rewrite lookup_last, length_app. simpl.
    split; [lia|]. split; [by right|].
    split; [eapply agree_trans; [exact Hagree|apply agree_filled]|].
    split; [apply filled_has_velocities|].
    split; [|done]. intros b Hb Hne. by rewrite lookup_total_app_l.
  - simpl frames. rewrite lookup_last, length_app. simpl.
    split; [lia|]. split; [by right|]. split; [apply with_velocities_agree|].
    split; [by apply with_velocities_has_velocities|].
    split; [|done]. intros b Hb Hne. by rewrite lookup_total_app_l.
Qed.

(** Property X1.  On a table with at least one row
    [_add_galactic_velocities] never raises, whatever the frame library
    does.  It returns a live table, the caller's own object or one newly
    allocated, that has the caller's row count, every column other than
    the five derived ones as the caller had it, and all five derived columns
    as float columns with one entry per row.  Every other table, the result
    objects, the last result and the log of queries are as before. *)
Theorem transform_keeps_rows_and_columns E w df :
  df < length (frames w) ->
  nrows (frames w !!! df) <> 0 ->
  exists a w',
    _add_galactic_velocities E df w = (Ok a, w') /\
    a < length (frames w') /\
    (a = df \/ a = length (frames w)) /\
    agree (frames w !!! df) (frames w' !!! a) /\
    has_velocities (frames w' !!! a) /\
    (forall b, b < length (frames w) -> b <> df -> frames w' !!! b = frames w !!! b) /\
    results w' = results w /\
    _last_result w' = _last_result w /\
    launched w' = launched w.
Proof. apply add_galactic_velocities_keeps. Qed.

Lemma transform_keeps_rows_and_columns_witness :
  let w := holding (table_of [star_a; star_fast]) in
  let E := mock_env (inl "offline") in
  0 < length (frames w) /\
  nrows (frames w !!! 0) <> 0 /\
  exists a w',
    _add_galactic_velocities E 0 w = (Ok a, w') /\
    a < length (frames w') /\
    (a = 0 \/ a = length (frames w)) /\
    agree (frames w !!! 0) (frames w' !!! a) /\
    has_velocities (frames w' !!! a) /\
    (forall b, b < length (frames w) -> b <> 0 -> frames w' !!! b = frames w !!! b) /\
    results w' = results w /\
    _last_result w' = _last_result w /\
    launched w' = launched w.
Proof.
  intros w E.
  assert (H1 : 0 < length (frames w)) by (simpl; lia).
  assert (H2 : nrows (frames w !!! 0) <> 0) by (simpl; lia).
  split; [exact H1|]. split; [exact H2|].
  exact (transform_keeps_rows_and_columns E w 0 H1 H2).
Defined.

(** Property X2.  The table [_add_galactic_velocities] returns is
    the caller's own object or a new one.  It is the caller's own object
    only for a table without rows, handed back with nothing changed, or
    after the [try] block raised, and then the caller's table has the five
    NaN columns written into it.  Whenever a new object is returned, it is
    the only one allocated and the caller's table is as it was. *)
Theorem transform_returns_the_callers_table_or_a_new_one E w df a w' :
  df < length (frames w) ->
  _add_galactic_velocities E df w = (Ok a, w') ->
  (a = df /\
   length (frames w') = length (frames w) /\
   ((nrows (frames w !!! df) = 0 /\ w' = w) \/
    (nrows (frames w !!! df) <> 0 /\ transform_fails E w df /\
     frames w' !!! df = filled (frames w !!! df)))) \/
  (a = length (frames w) /\
   length (frames w') = S (length (frames w)) /\
   frames w' !!! df = frames w !!! df).
Proof.
  intros Hdf Hrun.
  destruct (add_galactic_velocities_course E df w Hdf)
    as [H0|e Hn He|v e d' Hn Hv Hnot Hagree|v c Hn Hconv Hc Hlen];
    injection Hrun as <- <-.
  - left. split; [done|]. split; [done|]. by left.
  - left. split; [done|]. rewrite update_frame_length, update_frame_read by done.
    split; [done|]. right. split; [done|]. split; [|done]. left. by exists e.
  - right. split; [done|]. simpl frames. rewrite length_app. simpl.
    split; [lia|]. by rewrite lookup_total_app_l.
  - right. split; [done|]. simpl frames. rewrite length_app. simpl.
    split; [lia|]. by rewrite lookup_total_app_l.
Qed.

Lemma transform_returns_the_callers_table_or_a_new_one_witness :
  let w := holding (table_of [star_a; star_fast]) in
  let E := mock_env (inl "offline") in
  let w' := (_add_galactic_velocities E 0 w).2 in
  0 < length (frames w) /\
  _add_galactic_velocities E 0 w = (Ok 1, w') /\
  ((1 = 0 /\
    length (frames w') = length (frames w) /\
    ((nrows (frames w !!! 0) = 0 /\ w' = w) \/
     (nrows (frames w !!! 0) <> 0 /\ transform_fails E w 0 /\
      frames w' !!! 0 = filled (frames w !!! 0)))) \/
   (1 = length (frames w) /\
    length (frames w') = S (length (frames w)) /\
    frames w' !!! 0 = frames w !!! 0)).
Proof.
  intros w E w'.
  assert (H1 : 0 < length (frames w)) by (simpl; lia).
  assert (H2 : _add_galactic_velocities E 0 w = (Ok 1, w')) by (vm_compute; reflexivity).
  split; [exact H1|]. split; [exact H2|].
  exact (transform_returns_the_callers_table_or_a_new_one E w 0 1 w' H1 H2).
Defined.

(** ** The store across an operation *)

Lemma galactocentric_velocity_local E df w df' w' :
  frames w !!! df = frames w' !!! df' ->
  (galactocentric_velocity E df w).1 = (galactocentric_velocity E df' w').1.
Proof.
  intros Heq. unfold galactocentric_velocity.
  repeat (rewrite !bind_run, !getitem_run, <- Heq; destruct (col_lookup _ _); [|done]).
  by destruct (galactocentric E _).
Qed.

Lemma galactocentric_velocity_at E df w o :
  (galactocentric_velocity E df w).1 = o <-> galactocentric_velocity E df w = (o, w).
Proof.
  pose proof (galactocentric_velocity_reads E df w) as Hw.
  destruct (galactocentric_velocity E df w) as [o' w']. simpl in *. subst w'.
  split; [by intros -> | by intros [= ->]].
Qed.

Lemma batch_fails_at E w df :
  batch_fails E (frames w !!! df) <-> transform_fails E w df.
Proof.
  unfold batch_fails, transform_fails.
  assert (Hloc : (galactocentric_velocity E 0 (holding (frames w !!! df))).1
                 = (galactocentric_velocity E df w).1)
    by (by apply galactocentric_velocity_local).
  split; (intros [(e & He) | (v & Hv & Hnot)];
          [left; exists e | right; exists v; split; [|exact Hnot]]);
    apply galactocentric_velocity_at; apply galactocentric_velocity_at in He || apply galactocentric_velocity_at in Hv;
    congruence.
Qed.

Lemma failed_transform_all_missing E w df :
  df < length (frames w) ->
  nrows (frames w !!! df) <> 0 ->
  transform_fails E w df ->
  exists a w',
    _add_galactic_velocities E df w = (Ok a, w') /\ all_missing (frames w' !!! a).
Proof.
  intros Hdf Hn Hfails.
  destruct (add_galactic_velocities_course E df w Hdf)
    as [H0|e _ He|v e d' _ Hv _ Hagree|v c _ (Hv & H1 & H2 & H3) Hc Hlen];
    [contradiction | | | ]; eexists _, _; (split; [reflexivity|]).
  - rewrite update_frame_read by done. apply filled_all_missing.
  - simpl frames. rewrite lookup_last. apply filled_all_missing.
  - exfalso. destruct Hfails as [(e & He) | (v' & Hv' & Hnot)]; [congruence|].
    apply Hnot. assert (v' = v) as -> by congruence.
    repeat split; try done. by exists c.
Qed.

Lemma holds_execute_adql E q w d :
  launch_job E q = inr d ->
  exists r w',
    execute_adql E q w = (Ok r, w') /\
    holds w q d w' r /\
    row_count (results w' !!! r) = nrows d /\
    description (results w' !!! r)
    = "Query returned " +:+ str_int (Z.of_nat (nrows d)) +:+ " rows".
Proof.
  intros Hjob. eexists _, _. rewrite execute_adql_run, Hjob.
  split; [reflexivity|]. unfold holds, answered. simpl.
  rewrite lookup_last_result. simpl. rewrite lookup_last, !length_app. simpl.
  repeat split; try done; try lia.
  - intros b Hb. by rewrite lookup_total_app_l.
  - intros b Hb. by rewrite lookup_total_app_l.
Qed.

Lemma holds_set_description w0 text t w r s :
  holds w0 text t w r ->
  exists w',
    set_description r s w = (Ok tt, w') /\
    holds w0 text t w' r /\
    row_count (results w' !!! r) = row_count (results w !!! r) /\
    description (results w' !!! r) = s.
Proof.
  intros (Hr & Hlen & Hq & Hd & Ht & Hres & Hfr & Hlast & Hsent).
  eexists. split; [reflexivity|]. unfold holds. simpl.
  rewrite length_insert, list_lookup_total_insert_eq by lia. simpl.
  repeat split; try done; try lia.
  intros b Hb. rewrite list_lookup_total_insert_ne by lia. by apply Hres.
Qed.

(** [result.data = <new table>; result.row_count = len(result.data)] *)
Lemma holds_new_table w0 text t w r t' :
  holds w0 text t w r ->
  exists w',
    (forall a, a = length (frames w) ->
       (set_data r a ;;;
        df <- get_data r ;;
        n <- len df ;;
        set_row_count r n) (with_frames (frames w ++ [t']) w) = (Ok tt, w')) /\
    holds w0 text t' w' r /\
    row_count (results w' !!! r) = nrows t' /\
    description (results w' !!! r) = description (results w !!! r).
Proof.
  intros (Hr & Hlen & Hq & Hd & Ht & Hres & Hfr & Hlast & Hsent).
  eexists. split.
  - intros a ->. unfold set_data, get_data, len, set_row_count.
    unfold bind, read_result, write_result, read_frame, ret. simpl.
    rewrite !list_lookup_total_insert_eq by (rewrite ?length_insert; lia). simpl.
    rewrite list_insert_insert_eq, lookup_last. reflexivity.
  - unfold holds. simpl.
    rewrite length_insert, list_lookup_total_insert_eq by lia. simpl.
    rewrite lookup_last, length_app. simpl.
    repeat split; try done; try lia.
    + intros b Hb. rewrite list_lookup_total_insert_ne by lia. by apply Hres.
    + intros b Hb. rewrite lookup_total_app_l by lia. by apply Hfr.
Qed.

(** [result.data = self._add_galactic_velocities(result.data)] *)
Lemma holds_transform E w0 text d0 w r :
  holds w0 text d0 w r ->
  nrows d0 <> 0 ->
  exists w2 d',
    (forall B (K : M B),
       (df <- get_data r ;;
        df' <- _add_galactic_velocities E df ;;
        set_data r df' ;;;
        K) w = K w2) /\
    holds w0 text d' w2 r /\
    agree d0 d' /\
    has_velocities d' /\
    (batch_fails E d0 -> all_missing d') /\
    row_count (results w2 !!! r) = row_count (results w !!! r) /\
    description (results w2 !!! r) = description (results w !!! r).
Proof.
  intros (Hr & Hlen & Hq & Hd & Ht & Hres & Hfr & Hlast & Hsent) Hn.
  set (df := data (results w !!! r)) in *.
  assert (Hdf : df < length (frames w)) by lia.
  rewrite <- Ht in Hn.
  destruct (add_galactic_velocities_keeps E w df Hdf Hn)
    as (a & w1 & Hrun & Ha & Hwhere & Hagree & Hvel & Hother & Hres1 & Hlast1 & Hsent1).
  assert (Hmissing : batch_fails E d0 -> all_missing (frames w1 !!! a)).
  { intros Hfails. rewrite <- Ht in Hfails.
    apply (proj1 (batch_fails_at E w df)) in Hfails.
    destruct (failed_transform_all_missing E w df Hdf Hn Hfails) as (a' & w1' & Hrun' & Hm).
    rewrite Hrun in Hrun'. by injection Hrun' as <- <-. }
  assert (Hrange : length (frames w0) <= a) by (destruct Hwhere; lia).
  eexists _, (frames w1 !!! a). split; [intros B K|].
  { rewrite bind_run, get_data_run. cbv beta iota. fold df.
    rewrite bind_run, Hrun. cbv beta iota.
    rewrite bind_run, set_data_run. cbv beta iota. reflexivity. }
  unfold holds. simpl. rewrite Hres1.
  rewrite length_insert, list_lookup_total_insert_eq by lia. simpl.
  rewrite Ht in Hagree.
  repeat split; try done; try lia.
  - intros b Hb. rewrite list_lookup_total_insert_ne by lia. by apply Hres.
  - intros b Hb. rewrite Hother by (unfold df in *; lia). by apply Hfr.
  - congruence.
  - congruence.
  - apply Hagree.
  - apply Hagree.
Qed.

(** ** The stream filters as masks *)

Lemma has_velocities_col d name :
  has_velocities d -> name ∈ derived_columns ->
  exists xs,
    col_lookup name (columns d) = Some (FloatCol xs) /\
    col d name = FloatCol xs /\ length xs = nrows d.
Proof.
  intros Hvel Hname. destruct (Hvel name Hname) as (xs & Hxs & Hlen).
  exists xs. unfold col. by rewrite Hxs.
Qed.

Ltac velocity_column Hvel name xs Hlook Hcol Hlen :=
  destruct (has_velocities_col _ name Hvel ltac:(derived_member))
    as (xs & Hlook & Hcol & Hlen).

(** Each velocity filter, run on a table with the velocity columns, makes a
    new table: the selection by its mask. *)
Lemma stream_filter_run key c :
  _get_stream_criteria key = Some c ->
  exists f,
    velocity_filter c = Some f /\
    forall a w,
      has_velocities (frames w !!! a) ->
      f a w
      = (Ok (length (frames w)),
         with_frames
           (frames w ++ [select (stream_mask key (frames w !!! a)) (frames w !!! a)]) w).
Proof.
  unfold _get_stream_criteria, streams, stream_mask. cbn [dict_get].
  rewrite !(String.eqb_sym key).
  repeat (destruct (String.eqb _ key); [intros [= <-]; eexists; split; [reflexivity|] |]);
    [ .. | done ];
    intros a w Hvel;
    velocity_column Hvel "V_phi" xphi Lphi Cphi Nphi;
    velocity_column Hvel "V_R" xr Lr Cr Nr;
    velocity_column Hvel "V_z" xz Lz Cz Nz;
    unfold nyx_filter, gse_filter, helmi_filter, sequoia_filter,
      nyx_mask, gse_mask, helmi_mask, sequoia_mask;
    rewrite ?bind_run, ?getitem_run, ?Lphi, ?Lr, ?Lz; cbv beta iota;
    rewrite ?bind_run, ?getitem_run, ?Lphi, ?Lr, ?Lz; cbv beta iota;
    rewrite ?bind_run, ?getitem_run, ?Lphi, ?Lr, ?Lz; cbv beta iota;
    rewrite getitem_mask_run, ?Cphi, ?Cr, ?Cz; reflexivity.
Qed.

(** ** Every operation, from request to result *)

Lemma holds_table w0 text t w r :
  holds w0 text t w r -> frames w !!! data (results w !!! r) = t.
Proof. by intros (_ & _ & _ & _ & Ht & _). Qed.

Ltac finish_with_description Hholds :=
  match goal with
  | |- context [set_description ?r ?s] =>
      let w' := fresh "w" in
      let Hd := fresh "Hd" in
      let Hh := fresh "Hh" in
      let Hrc := fresh "Hrc" in
      destruct (holds_set_description _ _ _ _ _ s Hholds) as (w' & Hd & Hh & Hrc & _);
      rewrite bind_run, Hd; cbv beta iota
  end.

Lemma search_cone_outcome E ra dec radius limit w d0 :
  launch_job E (cone_query E (or_default limit (default_results E)) ra dec radius) = inr d0 ->
  exists r w',
    search_cone E ra dec radius limit w = (Ok r, w') /\
    holds w (cone_query E (or_default limit (default_results E)) ra dec radius) d0 w' r /\
    row_count (results w' !!! r) = nrows d0.
Proof.
  intros Hjob. unfold search_cone. cbv zeta.
  destruct (holds_execute_adql E _ w d0 Hjob) as (r & w2 & Hrun & Hholds & Hrc & _).
  rewrite bind_run, Hrun. cbv beta iota.
  finish_with_description Hholds.
  eexists _, _. split; [reflexivity|]. split; [done | congruence].
Qed.

Lemma search_solar_neighborhood_outcome E distance_pc limit w d0 :
  PrimFloat.eqb distance_pc 0 = false ->
  launch_job E (solar_neighborhood_query E (or_default limit (default_results E))
                  (1000 / distance_pc)%float) = inr d0 ->
  exists r w',
    search_solar_neighborhood E distance_pc limit w = (Ok r, w') /\
    holds w (solar_neighborhood_query E (or_default limit (default_results E))
               (1000 / distance_pc)%float) d0 w' r /\
    row_count (results w' !!! r) = nrows d0.
Proof.
  intros Hnz Hjob. unfold search_solar_neighborhood. cbv zeta.
  rewrite bind_run. unfold truediv at 1. rewrite Hnz. unfold ret at 1. cbv beta iota.
  destruct (holds_execute_adql E _ w d0 Hjob) as (r & w2 & Hrun & Hholds & Hrc & _).
  rewrite bind_run, Hrun. cbv beta iota.
  finish_with_description Hholds.
  eexists _, _. split; [reflexivity|]. split; [done | congruence].
Qed.

Lemma search_hypervelocity_stars_outcome E distance_kpc min_velocity_kms limit w d0 :
  PrimFloat.eqb distance_kpc 0 = false ->
  launch_job E (hypervelocity_query E (or_default limit (Z.min 500 (default_results E)))
                  (1 / distance_kpc)%float 20) = inr d0 ->
  exists r w' t,
    search_hypervelocity_stars E distance_kpc min_velocity_kms limit w = (Ok r, w') /\
    holds w (hypervelocity_query E (or_default limit (Z.min 500 (default_results E)))
               (1 / distance_kpc)%float 20) t w' r /\
    row_count (results w' !!! r) = nrows t /\
    kinematic E d0 t (fun d => select (gt (col d "v_total") min_velocity_kms) d).
Proof.
  intros Hnz Hjob. unfold search_hypervelocity_stars. cbv zeta.
  rewrite bind_run. unfold truediv at 1. rewrite Hnz. unfold ret at 1. cbv beta iota.
  destruct (holds_execute_adql E _ w d0 Hjob) as (r & w2 & Hrun & Hholds & Hrc & _).
  rewrite bind_run, Hrun. cbv beta iota.
  rewrite bind_run, get_data_run. cbv beta iota.
  rewrite bind_run, len_run. cbv beta iota.
  rewrite (holds_table _ _ _ _ _ Hholds).
  rewrite bind_run.
  destruct (Nat.ltb 0 (nrows d0)) eqn:Hrows.
  - apply Nat.ltb_lt in Hrows.
    destruct (holds_transform E _ _ _ _ _ Hholds ltac:(lia))
      as (w3 & d' & Hstep & Hholds3 & Hagree & Hvel & Hmiss & _).
    rewrite Hstep.
    rewrite bind_run, get_data_run. cbv beta iota.
    velocity_column Hvel "v_total" xs Lvt Cvt Nvt.
    rewrite bind_run, getitem_run, (holds_table _ _ _ _ _ Hholds3), Lvt. cbv beta iota.
    rewrite bind_run, getitem_mask_run, (holds_table _ _ _ _ _ Hholds3). cbv beta iota.
    destruct (holds_new_table _ _ _ _ _ (select (gt (FloatCol xs) min_velocity_kms) d') Hholds3)
      as (w4 & Hnew & Hholds4 & Hrc4 & _).
    rewrite (Hnew _ eq_refl). cbv beta iota.
    destruct (holds_set_description _ _ _ _ _
                ("Hypervelocity candidates within " +:+ repr E distance_kpc +:+ " kpc, "
                   +:+ "v > " +:+ repr E min_velocity_kms +:+ " km/s") Hholds4)
      as (w5 & Hd & Hholds5 & Hrc5 & _).
    rewrite bind_run, Hd. cbv beta iota.
    eexists _, _, _. split; [reflexivity|]. split; [exact Hholds5|].
    split; [congruence|]. right. split; [lia|].
    exists d'. rewrite Cvt. done.
  - apply Nat.ltb_ge in Hrows. unfold ret at 1. cbv beta iota.
    destruct (holds_set_description _ _ _ _ _
                ("Hypervelocity candidates within " +:+ repr E distance_kpc +:+ " kpc, "
                   +:+ "v > " +:+ repr E min_velocity_kms +:+ " km/s") Hholds)
      as (w5 & Hd & Hholds5 & Hrc5 & _).
    rewrite bind_run, Hd. cbv beta iota.
    eexists _, _, _. split; [reflexivity|]. split; [exact Hholds5|].
    split; [congruence|]. left. split; [lia | done].
Qed.

Lemma search_stellar_stream_outcome E stream_name limit w criteria d0 :
  _get_stream_criteria (lower E stream_name) = Some criteria ->
  launch_job E (stream_query E (or_default limit (default_results E))
                  (adql_filter criteria)) = inr d0 ->
  exists r w' t,
    search_stellar_stream E stream_name limit w = (Ok r, w') /\
    holds w (stream_query E (or_default limit (default_results E))
               (adql_filter criteria)) t w' r /\
    row_count (results w' !!! r) = nrows t /\
    kinematic E d0 t (fun d => select (stream_mask (lower E stream_name) d) d).
Proof.
  intros Hkey Hjob. unfold search_stellar_stream. cbv zeta. rewrite Hkey.
  destruct (stream_filter_run _ _ Hkey) as (f & Hf & Hfrun). rewrite Hf.
  destruct (holds_execute_adql E _ w d0 Hjob) as (r & w2 & Hrun & Hholds & Hrc & _).
  rewrite bind_run, Hrun. cbv beta iota.
  rewrite bind_run, get_data_run. cbv beta iota.
  rewrite bind_run, len_run. cbv beta iota.
  rewrite (holds_table _ _ _ _ _ Hholds).
  rewrite bind_run.
  destruct (Nat.ltb 0 (nrows d0)) eqn:Hrows.
  - apply Nat.ltb_lt in Hrows.
    destruct (holds_transform E _ _ _ _ _ Hholds ltac:(lia))
      as (w3 & d' & Hstep & Hholds3 & Hagree & Hvel & Hmiss & _).
    rewrite Hstep.
    rewrite bind_run, get_data_run. cbv beta iota.
    rewrite bind_run, Hfrun by (by rewrite (holds_table _ _ _ _ _ Hholds3)).
    cbv beta iota. rewrite (holds_table _ _ _ _ _ Hholds3).
    destruct (holds_new_table _ _ _ _ _ (select (stream_mask (lower E stream_name) d') d') Hholds3)
      as (w4 & Hnew & Hholds4 & Hrc4 & _).
    rewrite (Hnew _ eq_refl). cbv beta iota.
    destruct (holds_set_description _ _ _ _ _ (criteria_description criteria) Hholds4)
      as (w5 & Hd & Hholds5 & Hrc5 & _).
    rewrite bind_run, Hd. cbv beta iota.
    eexists _, _, _. split; [reflexivity|]. split; [exact Hholds5|].
    split; [congruence|]. right. split; [lia|]. by exists d'.
  - apply Nat.ltb_ge in Hrows. unfold ret at 1. cbv beta iota.
    destruct (holds_set_description _ _ _ _ _ (criteria_description criteria) Hholds)
      as (w5 & Hd & Hholds5 & Hrc5 & _).
    rewrite bind_run, Hd. cbv beta iota.
    eexists _, _, _. split; [reflexivity|]. split; [exact Hholds5|].
    split; [congruence|]. left. split; [lia | done].
Qed.

Lemma search_accreted_halo_outcome E retrograde_only limit w d0 :
  launch_job E (accreted_halo_query E (or_default limit (default_results E) * 2)) = inr d0 ->
  exists r w' t,
    search_accreted_halo E retrograde_only limit w = (Ok r, w') /\
    holds w (accreted_halo_query E (or_default limit (default_results E) * 2)) t w' r /\
    row_count (results w' !!! r) = nrows t /\
    kinematic E d0 t
      (fun d => head (or_default limit (default_results E))
                  (select (halo_mask retrograde_only (col d "V_phi")) d)).
Proof.
  intros Hjob. unfold search_accreted_halo. cbv zeta.
  set (L := or_default limit (default_results E)) in *.
  set (desc := if retrograde_only then _ else _).
  destruct (holds_execute_adql E _ w d0 Hjob) as (r & w2 & Hrun & Hholds & Hrc & _).
  rewrite bind_run, Hrun. cbv beta iota.
  rewrite bind_run, get_data_run. cbv beta iota.
  rewrite bind_run, len_run. cbv beta iota.
  rewrite (holds_table _ _ _ _ _ Hholds).
  rewrite bind_run.
  destruct (Nat.ltb 0 (nrows d0)) eqn:Hrows.
  - apply Nat.ltb_lt in Hrows.
    destruct (holds_transform E _ _ _ _ _ Hholds ltac:(lia))
      as (w3 & d' & Hstep & Hholds3 & Hagree & Hvel & Hmiss & _).
    rewrite Hstep.
    velocity_column Hvel "V_phi" xs Lphi Cphi Nphi.
    destruct (holds_new_table _ _ _ _ _
                (head L (select (halo_mask retrograde_only (FloatCol xs)) d')) Hholds3)
      as (w4 & Hnew & Hholds4 & Hrc4 & _).
    assert (Hblock :
      ((if retrograde_only
        then
          df <- get_data r ;;
          v_phi <- getitem df "V_phi" ;;
          df' <- getitem_mask_head df (lt v_phi (-50)) L ;;
          set_data r df'
        else
          df <- get_data r ;;
          v_phi <- getitem df "V_phi" ;;
          v_phi' <- getitem df "V_phi" ;;
          df' <- getitem_mask_head df (mask_or (lt (np_abs v_phi) 100) (lt v_phi' (-50))) L ;;
          set_data r df') ;;;
       df <- get_data r ;;
       n <- len df ;;
       set_row_count r n) w3 = (Ok tt, w4)).
    { rewrite <- (Hnew _ eq_refl).
      rewrite (bind_run (set_data _ _)), set_data_run. cbv beta iota.
      destruct retrograde_only;
        rewrite bind_run, (bind_run (get_data r)), get_data_run; cbv beta iota;
        repeat (rewrite (bind_run (getitem _ _)), getitem_run,
                  (holds_table _ _ _ _ _ Hholds3), Lphi; cbv beta iota);
        rewrite (bind_run (getitem_mask_head _ _ _)), getitem_mask_head_run,
          (holds_table _ _ _ _ _ Hholds3);
        cbv beta iota; rewrite set_data_run; reflexivity. }
    rewrite Hblock. cbv beta iota.
    destruct (holds_set_description _ _ _ _ _ desc Hholds4)
      as (w5 & Hd & Hholds5 & Hrc5 & _).
    rewrite bind_run, Hd. cbv beta iota.
    eexists _, _, _. split; [reflexivity|]. split; [exact Hholds5|].
    split; [congruence|]. right. split; [lia|].
    exists d'. rewrite Cphi. done.
  - apply Nat.ltb_ge in Hrows. unfold ret at 1. cbv beta iota.
    destruct (holds_set_description _ _ _ _ _ desc Hholds)
      as (w5 & Hd & Hholds5 & Hrc5 & _).
    rewrite bind_run, Hd. cbv beta iota.
    eexists _, _, _. split; [reflexivity|]. split; [exact Hholds5|].
    split; [congruence|]. left. split; [lia | done].
Qed.

Lemma execute_adql_refused E q w msg :
  launch_job E q = inl msg ->
  execute_adql E q w
  = (Raise (RuntimeError ("ADQL query failed: " +:+ msg)),
     with_launched (launched w ++ [q]) w).
Proof. intros Hjob. by rewrite execute_adql_run, Hjob. Qed.

(** Every public operation, in full: the check before the query, the
    archive's refusal, the archive's answer. *)
Lemma perform_outcome E c w :
  match request E c with
  | inl e => perform E c w = (Raise e, w)
  | inr text =>
      match launch_job E text with
      | inl msg =>
          perform E c w
          = (Raise (RuntimeError ("ADQL query failed: " +:+ msg)),
             with_launched (launched w ++ [text]) w)
      | inr d0 =>
          exists r w' t,
            perform E c w = (Ok r, w') /\
            holds w text t w' r /\
            row_count (results w' !!! r) = nrows t /\
            returns E c d0 t
      end
  end.
Proof.
  destruct c as [q|ra dec radius limit|distance_pc limit
                 |distance_kpc min_velocity_kms limit|stream_name limit
                 |retrograde_only limit]; unfold request, perform.
  - destruct (launch_job E q) as [msg|d0] eqn:Hjob.
    + by apply execute_adql_refused.
    + destruct (holds_execute_adql E q w d0 Hjob) as (r & w' & Hrun & Hholds & Hrc & _).
      by exists r, w', d0.
  - destruct (launch_job E _) as [msg|d0] eqn:Hjob.
    + unfold search_cone. cbv zeta.
      by rewrite bind_run, (execute_adql_refused _ _ _ _ Hjob).
    + destruct (search_cone_outcome E ra dec radius limit w d0 Hjob)
        as (r & w' & Hrun & Hholds & Hrc).
      by exists r, w', d0.
  - destruct (PrimFloat.eqb distance_pc 0) eqn:Hnz.
    + unfold search_solar_neighborhood. cbv zeta.
      rewrite bind_run. unfold truediv. by rewrite Hnz.
    + destruct (launch_job E _) as [msg|d0] eqn:Hjob.
      * unfold search_solar_neighborhood. cbv zeta.
        rewrite bind_run. unfold truediv at 1. rewrite Hnz. unfold ret at 1.
        cbv beta iota.
        by rewrite bind_run, (execute_adql_refused _ _ _ _ Hjob).
      * destruct (search_solar_neighborhood_outcome E distance_pc limit w d0 Hnz Hjob)
          as (r & w' & Hrun & Hholds & Hrc).
        by exists r, w', d0.
  - destruct (PrimFloat.eqb distance_kpc 0) eqn:Hnz.
    + unfold search_hypervelocity_stars. cbv zeta.
      rewrite bind_run. unfold truediv. by rewrite Hnz.
    + destruct (launch_job E _) as [msg|d0] eqn:Hjob.
      * unfold search_hypervelocity_stars. cbv zeta.
        rewrite bind_run. unfold truediv at 1. rewrite Hnz. unfold ret at 1.
        cbv beta iota.
        by rewrite bind_run, (execute_adql_refused _ _ _ _ Hjob).
      * by apply search_hypervelocity_stars_outcome.
  - destruct (_get_stream_criteria (lower E stream_name)) as [criteria|] eqn:Hkey.
    + destruct (launch_job E _) as [msg|d0] eqn:Hjob.
      * unfold search_stellar_stream. cbv zeta. rewrite Hkey.
        by rewrite bind_run, (execute_adql_refused _ _ _ _ Hjob).
      * by apply search_stellar_stream_outcome.
    + unfold search_stellar_stream. cbv zeta. by rewrite Hkey.
  - destruct (launch_job E _) as [msg|d0] eqn:Hjob.
    + unfold search_accreted_halo. cbv zeta.
      by rewrite bind_run, (execute_adql_refused _ _ _ _ Hjob).
    + by apply search_accreted_halo_outcome.
Qed.

(** The errors [request] can give. *)
Lemma request_errors E c e :
  request E c = inl e ->
  (exists msg, e = ZeroDivisionError msg) \/ (exists msg, e = ValueError msg).
Proof.
  destruct c; simpl; try done.
  - destruct (PrimFloat.eqb _ _); [|done]. intros [= <-]. left. by eexists.
  - destruct (PrimFloat.eqb _ _); [|done]. intros [= <-]. left. by eexists.
  - destruct (_get_stream_criteria _); [done|]. intros [= <-]. right. by eexists.
Qed.

(** Property X3.  When one of the six public operations raises, no
    result object and no table was created or changed, the last result is
    the one from before the call and nothing was printed.  The exception is
    a [ZeroDivisionError] or a [ValueError] raised before any query was
    sent, with the whole state unchanged, or it is the [RuntimeError] of
    [execute_adql] around the archive's message, after exactly one query. *)
Theorem failed_operation_leaves_the_store E c w e w' :
  perform E c w = (Raise e, w') ->
  results w' = results w /\
  frames w' = frames w /\
  _last_result w' = _last_result w /\
  stdout w' = stdout w /\
  ((w' = w /\
    ((exists msg, e = ZeroDivisionError msg) \/ (exists msg, e = ValueError msg))) \/
   (exists text msg,
      launch_job E text = inl msg /\
      e = RuntimeError ("ADQL query failed: " +:+ msg) /\
      launched w' = (launched w ++ [text])%list)).
Proof.
  intros Hrun. pose proof (perform_outcome E c w) as Hout.
  destruct (request E c) as [e0|text] eqn:Hreq.
  - rewrite Hrun in Hout. injection Hout as -> ->.
    repeat split; try done. left. split; [done|]. by eapply request_errors.
  - destruct (launch_job E text) as [msg|d0] eqn:Hjob.
    + rewrite Hrun in Hout. injection Hout as -> ->.
      repeat split; try done. right. by exists text, msg.
    + destruct Hout as (r & w1 & t & Hok & _). congruence.
Qed.

Lemma failed_operation_leaves_the_store_witness :
  let E := mock_env (inl "offline") in
  let c := SearchCone 10 20 1 None in
  let e := RuntimeError "ADQL query failed: offline" in
  let w' := (perform E c boot).2 in
  perform E c boot = (Raise e, w') /\
  results w' = results boot /\
  frames w' = frames boot /\
  _last_result w' = _last_result boot /\
  stdout w' = stdout boot /\
  ((w' = boot /\
    ((exists msg, e = ZeroDivisionError msg) \/ (exists msg, e = ValueError msg))) \/
   (exists text msg,
      launch_job E text = inl msg /\
      e = RuntimeError ("ADQL query failed: " +:+ msg) /\
      launched w' = (launched boot ++ [text])%list)).
Proof.
  intros E c e w'.
  assert (H1 : perform E c boot = (Raise e, w')) by (vm_compute; reflexivity).
  split; [exact H1|].
  exact (failed_operation_leaves_the_store E c boot e w' H1).
Defined.

(** Property X4.  When one of the six public operations returns,
    the result object is a new one, appended to those that exist;
    [get_last_result] now returns that same object; it carries the text of
    the one query that was sent; and every result object and every table
    from before the call is unchanged. *)
Theorem returned_result_is_the_stored_one E c w r w' :
  perform E c w = (Ok r, w') ->
  exists text,
    request E c = inr text /\
    r = length (results w) /\
    length (results w') = S r /\
    get_last_result w' = (Ok (Some r), w') /\
    query (results w' !!! r) = text /\
    launched w' = (launched w ++ [text])%list /\
    (forall b, b < length (results w) -> results w' !!! b = results w !!! b) /\
    (forall b, b < length (frames w) -> frames w' !!! b = frames w !!! b).
Proof.
  intros Hrun. pose proof (perform_outcome E c w) as Hout.
  destruct (request E c) as [e0|text] eqn:Hreq; [congruence|].
  destruct (launch_job E text) as [msg|d0] eqn:Hjob; [congruence|].
  destruct Hout as (r1 & w1 & t & Hok & Hholds & _).
  rewrite Hrun in Hok. injection Hok as <- <-.
  destruct Hholds as (Hr & Hlen & Hq & Hd & Ht & Hres & Hfr & Hlast & Hsent).
  exists text. unfold get_last_result. rewrite Hlast. done.
Qed.

Lemma returned_result_is_the_stored_one_witness :
  let E := mock_env (inr (table_of [star_a; star_fast])) in
  let c := SearchHypervelocityStars 5 300 None in
  let w' := (perform E c boot).2 in
  perform E c boot = (Ok 0, w') /\
  exists text,
    request E c = inr text /\
    0 = length (results boot) /\
    length (results w') = 1 /\
    get_last_result w' = (Ok (Some 0), w') /\
    query (results w' !!! 0) = text /\
    launched w' = (launched boot ++ [text])%list /\
    (forall b, b < length (results boot) -> results w' !!! b = results boot !!! b) /\
    (forall b, b < length (frames boot) -> frames w' !!! b = frames boot !!! b).
Proof.
  intros E c w'.
  assert (H1 : perform E c boot = (Ok 0, w')) by (vm_compute; reflexivity).
  split; [exact H1|].
  exact (returned_result_is_the_stored_one E c boot 0 w' H1).
Defined.

(** ** Selections *)

Lemma keep_nil {A} mask : keep mask (@nil A) = [].
Proof. by destruct mask. Qed.

Lemma keep_length {A} mask (xs : list A) : length (keep mask xs) <= length xs.
Proof.
  revert xs. induction mask as [|b mask IH]; intros [|x xs]; simpl; try lia.
  destruct b; simpl; specialize (IH xs); lia.
Qed.

(** Where the mask is true the row satisfies [p]: so does every kept row. *)
Lemma keep_sound {A} (p : A -> Prop) mask (xs : list A) :
  (forall i x, mask !! i = Some true -> xs !! i = Some x -> p x) ->
  Forall p (keep mask xs).
Proof.
  revert xs. induction mask as [|b mask IH]; intros [|x xs] Hp; simpl; try done.
  assert (Htail : Forall p (keep mask xs)).
  { apply IH. intros i y Hm Hx. by apply (Hp (S i)). }
  destruct b; [|done]. constructor; [|done]. by apply (Hp 0).
Qed.

Lemma keep_all_false {A} n (xs : list A) : keep (replicate n false) xs = [].
Proof. revert xs. induction n as [|n IH]; intros [|x xs]; simpl; try done. Qed.

Lemma keep_all_true {A} mask (xs : list A) :
  Forall (fun b => b = true) mask -> length xs <= length mask -> keep mask xs = xs.
Proof.
  revert xs. induction mask as [|b mask IH]; intros [|x xs] Hall Hlen; simpl in *;
    try done; try lia.
  apply Forall_cons in Hall as [-> Hall]. f_equal. apply IH; [done | lia].
Qed.

Lemma values_keep mask c : values (col_keep mask c) = keep mask (values c).
Proof. destruct c; simpl; [by rewrite keep_fmap | done]. Qed.

Lemma values_take n c : values (col_take n c) = take n (values c).
Proof. destruct c; simpl; [by rewrite fmap_take | done]. Qed.

Lemma col_select mask d name : col (select mask d) name = col_keep mask (col d name).
Proof.
  unfold col. simpl columns. rewrite col_lookup_fmap.
  destruct (col_lookup name (columns d)); simpl; [done|]. by rewrite keep_nil.
Qed.

Lemma col_head n d name :
  col (head n d) name = col_take (head_count n (nrows d)) (col d name).
Proof.
  unfold col. simpl columns. rewrite col_lookup_fmap.
  destruct (col_lookup name (columns d)); simpl; [done|]. by rewrite take_nil.
Qed.

Lemma nrows_select mask d : nrows (select mask d) <= nrows d.
Proof. simpl. etrans; [apply keep_length|]. by rewrite length_replicate. Qed.

Lemma head_count_le n len : head_count n len <= len.
Proof. unfold head_count. destruct (0 <=? n)%Z; lia. Qed.

Lemma head_count_cap n len : (0 <= n)%Z -> (Z.of_nat (head_count n len) <= n)%Z.
Proof. unfold head_count. intros Hn. destruct (0 <=? n)%Z eqn:H; lia. Qed.

Lemma source_ids_select mask d :
  source_ids (select mask d) = keep mask (source_ids d).
Proof.
  unfold source_ids. simpl columns. rewrite col_lookup_fmap.
  destruct (col_lookup "source_id" (columns d)); simpl; [apply cells_keep|].
  by rewrite keep_nil.
Qed.

Lemma source_ids_head n d :
  source_ids (head n d) = take (head_count n (nrows d)) (source_ids d).
Proof.
  unfold source_ids. simpl columns. rewrite col_lookup_fmap.
  destruct (col_lookup "source_id" (columns d)); simpl; [apply cells_take|].
  by rewrite take_nil.
Qed.

Lemma source_ids_agree d d' : agree d d' -> source_ids d' = source_ids d.
Proof.
  intros [_ Hcols]. unfold source_ids. rewrite Hcols; [done|].
  unfold derived_columns. intros Hin.
  repeat (apply elem_of_cons in Hin as [Hin | Hin]; [discriminate|]).
  by apply elem_of_nil in Hin.
Qed.

Lemma keep_sublist {A} mask (xs : list A) : keep mask xs `sublist_of` xs.
Proof.
  revert xs. induction mask as [|b mask IH]; intros [|x xs]; simpl;
    try apply sublist_nil_l.
  destruct b; [by apply sublist_skip | by apply sublist_cons].
Qed.

(** The rows a call returns are rows of the answer, in the answer's order. *)
Lemma returns_selection_of_the_answer E c d0 t :
  returns E c d0 t ->
  nrows t <= nrows d0 /\ source_ids t `sublist_of` source_ids d0.
Proof.
  assert (Hkin : forall pick,
            (forall d, nrows (pick d) <= nrows d /\
                       source_ids (pick d) `sublist_of` source_ids d) ->
            kinematic E d0 t pick ->
            nrows t <= nrows d0 /\ source_ids t `sublist_of` source_ids d0).
  { intros pick Hpick [[_ ->] | (_ & d' & Hagree & _ & _ & ->)]; [done|].
    destruct (Hpick d') as [Hn Hids]. rewrite <- (source_ids_agree _ _ Hagree).
    destruct Hagree as [<- _]. done. }
  destruct c; simpl; try (by intros ->); apply Hkin; intros d.
  - split; [apply nrows_select|]. rewrite source_ids_select. apply keep_sublist.
  - split; [apply nrows_select|]. rewrite source_ids_select. apply keep_sublist.
  - split.
    + etrans; [apply head_count_le | apply nrows_select].
    + rewrite source_ids_head, source_ids_select.
      etrans; [apply sublist_take | apply keep_sublist].
Qed.

(** Property X5.  Once the check before the query has passed and the
    archive has answered, none of the six operations raises, whatever the
    frame library does.  The [row_count] of the result is at most the
    number of rows the archive sent, and the [source_id]s of its table are
    a selection of those the archive sent, in the archive's order. *)
Theorem answered_operation_succeeds E c w text d0 :
  request E c = inr text ->
  launch_job E text = inr d0 ->
  exists r w',
    perform E c w = (Ok r, w') /\
    row_count (results w' !!! r) <= nrows d0 /\
    source_ids (table_of_result w' r) `sublist_of` source_ids d0.
Proof.
  intros Hreq Hjob. pose proof (perform_outcome E c w) as Hout.
  rewrite Hreq, Hjob in Hout.
  destruct Hout as (r & w' & t & Hrun & Hholds & Hrc & Hret).
  exists r, w'. split; [done|].
  destruct (returns_selection_of_the_answer E c d0 t Hret) as [Hn Hids].
  unfold table_of_result. rewrite (holds_table _ _ _ _ _ Hholds). split; [lia | done].
Qed.

Lemma answered_operation_succeeds_witness :
  let d0 := table_of [star_a; star_retrograde; star_fast] in
  let E := mock_env (inr d0) in
  let c := SearchAccretedHalo false (Some 2%Z) in
  let text := accreted_halo_query E 4 in
  request E c = inr text /\
  launch_job E text = inr d0 /\
  exists r w',
    perform E c boot = (Ok r, w') /\
    row_count (results w' !!! r) <= nrows d0 /\
    source_ids (table_of_result w' r) `sublist_of` source_ids d0.
Proof.
  intros d0 E c text.
  assert (H1 : request E c = inr text) by reflexivity.
  assert (H2 : launch_job E text = inr d0) by reflexivity.
  split; [exact H1|]. split; [exact H2|].
  exact (answered_operation_succeeds E c boot text d0 H1 H2).
Defined.

(** Property X6.  [execute_adql], [search_cone] and
    [search_solar_neighborhood] hand over the archive's table exactly as it
    came, and so does every search whose answer has no rows: no column is
    added, and [row_count] is the archive's row count. *)
Theorem answer_returned_as_it_came E c w text d0 r w' :
  request E c = inr text ->
  launch_job E text = inr d0 ->
  kinematic_call c = false \/ nrows d0 = 0 ->
  perform E c w = (Ok r, w') ->
  table_of_result w' r = d0 /\ row_count (results w' !!! r) = nrows d0.
Proof.
  intros Hreq Hjob Hcase Hrun. pose proof (perform_outcome E c w) as Hout.
  rewrite Hreq, Hjob in Hout.
  destruct Hout as (r1 & w1 & t & Hrun1 & Hholds & Hrc & Hret).
  rewrite Hrun in Hrun1. injection Hrun1 as <- <-.
  unfold table_of_result. rewrite (holds_table _ _ _ _ _ Hholds), Hrc.
  assert (t = d0) as ->; [|done].
  destruct c; simpl in Hret, Hcase; try done;
    (destruct Hcase as [Hk | Hempty]; [done|]);
    (destruct Hret as [[_ ->] | (Hne & _)]; [done | contradiction]).
Qed.

Lemma answer_returned_as_it_came_witness :
  let d0 := table_of [star_a; star_negative_parallax] in
  let E := mock_env (inr d0) in
  let c := SearchSolarNeighborhood 100 (Some 10%Z) in
  let text := solar_neighborhood_query E 10 (1000 / 100)%float in
  let w' := (perform E c boot).2 in
  request E c = inr text /\
  launch_job E text = inr d0 /\
  (kinematic_call c = false \/ nrows d0 = 0) /\
  perform E c boot = (Ok 0, w') /\
  table_of_result w' 0 = d0 /\ row_count (results w' !!! 0) = nrows d0.
Proof.
  intros d0 E c text w'.
  assert (H1 : request E c = inr text) by reflexivity.
  assert (H2 : launch_job E text = inr d0) by reflexivity.
  assert (H3 : kinematic_call c = false \/ nrows d0 = 0) by (left; reflexivity).
  assert (H4 : perform E c boot = (Ok 0, w')) by (vm_compute; reflexivity).
  split; [exact H1|]. split; [exact H2|]. split; [exact H3|]. split; [exact H4|].
  exact (answer_returned_as_it_came E c boot text d0 0 w' H1 H2 H3 H4).
Defined.

(** ** Comparisons with the missing marker *)

Lemma ltb_nan_r x : PrimFloat.ltb x nan = false.
Proof.
  rewrite ltb_spec. change (Prim2SF nan) with S754_nan.
  unfold SFltb, SFcompare. by destruct (Prim2SF x).
Qed.

Lemma gt_missing n x : gt (FloatCol (replicate n nan)) x = replicate n false.
Proof. unfold gt. simpl. rewrite fmap_replicate. by rewrite ltb_nan_r. Qed.

Lemma zip_with_replicate {A B C} (f : A -> B -> C) n a b :
  zip_with f (replicate n a) (replicate n b) = replicate n (f a b).
Proof. induction n as [|n IH]; simpl; [done | by rewrite IH]. Qed.

Lemma select_none n d : nrows d = n -> nrows (select (replicate n false) d) = 0.
Proof. intros <-. simpl. by rewrite keep_all_false. Qed.

Lemma all_missing_col d name :
  all_missing d -> name ∈ derived_columns ->
  col d name = FloatCol (replicate (nrows d) nan).
Proof. intros Hm Hname. unfold col. by rewrite (Hm name Hname). Qed.

Lemma stream_mask_missing key d :
  all_missing d -> stream_mask key d = replicate (nrows d) false.
Proof.
  intros Hm. unfold stream_mask, nyx_mask, gse_mask, helmi_mask, sequoia_mask.
  rewrite !(all_missing_col d) by (done || derived_member).
  unfold mask_and, mask_or, gt, lt, np_abs. simpl values.
  rewrite !fmap_replicate.
  repeat destruct (String.eqb key _); rewrite ?zip_with_replicate; reflexivity.
Qed.

Lemma halo_mask_missing retro n :
  halo_mask retro (FloatCol (replicate n nan)) = replicate n false.
Proof.
  unfold halo_mask, mask_or, lt, np_abs. simpl values. rewrite !fmap_replicate.
  destruct retro; rewrite ?zip_with_replicate; reflexivity.
Qed.

(** Property X7.  When the frame transform fails on a non-empty
    answer, each of the three kinematic searches (hypervelocity, stellar
    stream, accreted halo) still returns, with a table of no rows and a
    [row_count] of 0: no comparison with the NaN that was filled in
    holds. *)
Theorem failed_transform_gives_no_rows E c w text d0 r w' :
  kinematic_call c = true ->
  request E c = inr text ->
  launch_job E text = inr d0 ->
  nrows d0 <> 0 ->
  batch_fails E d0 ->
  perform E c w = (Ok r, w') ->
  row_count (results w' !!! r) = 0 /\ nrows (table_of_result w' r) = 0.
Proof.
  intros Hkin Hreq Hjob Hrows Hfails Hrun. pose proof (perform_outcome E c w) as Hout.
  rewrite Hreq, Hjob in Hout.
  destruct Hout as (r1 & w1 & t & Hrun1 & Hholds & Hrc & Hret).
  rewrite Hrun in Hrun1. injection Hrun1 as <- <-.
  unfold table_of_result. rewrite (holds_table _ _ _ _ _ Hholds), Hrc.
  assert (nrows t = 0) as ->; [|done].
  destruct c; simpl in Hret, Hkin; try done;
    (destruct Hret as [[Hz _] | (_ & d' & _ & _ & Hmiss & ->)]; [contradiction|]);
    specialize (Hmiss Hfails).
  - rewrite (all_missing_col d') by (done || derived_member).
    rewrite gt_missing. by apply select_none.
  - rewrite stream_mask_missing by done. by apply select_none.
  - rewrite (all_missing_col d') by (done || derived_member).
    rewrite halo_mask_missing. simpl. rewrite keep_all_false. simpl.
    unfold head_count. destruct (0 <=? _)%Z; lia.
Qed.

Lemma failed_transform_gives_no_rows_witness :
  let d0 := table_of [star_a; star_negative_parallax] in
  let E := mock_env (inr d0) in
  let c := SearchAccretedHalo false None in
  let text := accreted_halo_query E 2000 in
  let w' := (perform E c boot).2 in
  kinematic_call c = true /\
  request E c = inr text /\
  launch_job E text = inr d0 /\
  nrows d0 <> 0 /\
  batch_fails E d0 /\
  perform E c boot = (Ok 0, w') /\
  row_count (results w' !!! 0) = 0 /\ nrows (table_of_result w' 0) = 0.
Proof.
  intros d0 E c text w'.
  assert (H1 : kinematic_call c = true) by reflexivity.
  assert (H2 : request E c = inr text) by reflexivity.
  assert (H3 : launch_job E text = inr d0) by reflexivity.
  assert (H4 : nrows d0 <> 0) by (simpl; lia).
  assert (H5 : batch_fails E d0) by (left; eexists; vm_compute; reflexivity).
  assert (H6 : perform E c boot = (Ok 0, w')) by (vm_compute; reflexivity).
  split; [exact H1|]. split; [exact H2|]. split; [exact H3|]. split; [exact H4|].
  split; [exact H5|]. split; [exact H6|].
  exact (failed_transform_gives_no_rows E c boot text d0 0 w' H1 H2 H3 H4 H5 H6).
Defined.

(** ** What the selected rows satisfy *)

(** The rows kept by a mask computed from a column satisfy the test the
    mask was computed with. *)
Lemma keep_own_mask (p : float -> bool) xs :
  Forall (fun x => p x = true) (keep (p <$> xs) xs).
Proof.
  apply keep_sound. intros i x Hm Hx.
  rewrite list_lookup_fmap, Hx in Hm. simpl in Hm. congruence.
Qed.

Lemma well_formed_col d name : well_formed d = true -> nrows d = 0 -> values (col d name) = [].
Proof.
  intros Hwf Hz. unfold col.
  destruct (col_lookup name (columns d)) as [c|] eqn:Hc; simpl; [|done].
  apply nil_length_inv. rewrite (well_formed_lookup _ _ _ Hwf Hc). done.
Qed.

(** Property X8.  Every row [search_hypervelocity_stars] returns has
    a [v_total] strictly above [min_velocity_kms]. *)
Theorem hypervelocity_rows_exceed_the_threshold E distance_kpc min_velocity_kms limit w r w' :
  archive_well_formed E ->
  search_hypervelocity_stars E distance_kpc min_velocity_kms limit w = (Ok r, w') ->
  Forall (fun x => PrimFloat.ltb min_velocity_kms x = true)
         (values (col (table_of_result w' r) "v_total")).
Proof.
  intros Hwf Hrun.
  pose proof (perform_outcome E (SearchHypervelocityStars distance_kpc min_velocity_kms limit) w)
    as Hout.
  simpl perform in Hout. unfold request in Hout.
  destruct (PrimFloat.eqb distance_kpc 0); [congruence|].
  destruct (launch_job E _) as [msg|d0] eqn:Hjob; [congruence|].
  destruct Hout as (r1 & w1 & t & Hrun1 & Hholds & Hrc & Hret).
  rewrite Hrun in Hrun1. injection Hrun1 as <- <-.
  unfold table_of_result. rewrite (holds_table _ _ _ _ _ Hholds).
  destruct Hret as [[Hz ->] | (_ & d' & _ & Hvel & _ & ->)].
  - rewrite well_formed_col; [constructor | by eapply Hwf | done].
  - rewrite col_select, values_keep. apply keep_own_mask.
Qed.

Lemma hypervelocity_rows_exceed_the_threshold_witness :
  let E := mock_env (inr (table_of [star_a; star_fast])) in
  let w' := (search_hypervelocity_stars E 5 300 None boot).2 in
  archive_well_formed E /\
  search_hypervelocity_stars E 5 300 None boot = (Ok 0, w') /\
  Forall (fun x => PrimFloat.ltb 300 x = true)
         (values (col (table_of_result w' 0) "v_total")).
Proof.
  intros E w'.
  assert (H1 : archive_well_formed E) by (intros q d [= <-]; reflexivity).
  assert (H2 : search_hypervelocity_stars E 5 300 None boot = (Ok 0, w'))
    by (vm_compute; reflexivity).
  split; [exact H1|]. split; [exact H2|].
  exact (hypervelocity_rows_exceed_the_threshold E 5%float 300%float None boot 0 w' H1 H2).
Defined.

(** ** The cuts, row by row *)

Lemma mask_and_true (m1 m2 : list bool) (i : nat) :
  mask_and m1 m2 !! i = Some true -> m1 !! i = Some true /\ m2 !! i = Some true.
Proof.
  unfold mask_and. rewrite lookup_zip_with.
  destruct (m1 !! i) as [[]|], (m2 !! i) as [[]|]; simpl; by intros.
Qed.

Lemma mask_or_true (m1 m2 : list bool) (i : nat) :
  mask_or m1 m2 !! i = Some true -> m1 !! i = Some true \/ m2 !! i = Some true.
Proof.
  unfold mask_or. rewrite lookup_zip_with.
  destruct (m1 !! i) as [[]|], (m2 !! i) as [[]|]; simpl; intros; auto; done.
Qed.

Lemma test_true (p : float -> bool) (xs : list float) (i : nat) x :
  (p <$> xs) !! i = Some true -> xs !! i = Some x -> p x = true.
Proof. rewrite list_lookup_fmap. intros Hm Hx. rewrite Hx in Hm. simpl in Hm. congruence. Qed.

(** The velocity columns of a selection of a table that has them. *)
Lemma selected_velocities d name :
  has_velocities d -> name ∈ derived_columns ->
  exists xs,
    col d name = FloatCol xs /\ length xs = nrows d /\
    forall m, values (col (select m d) name) = keep m xs.
Proof.
  intros Hvel Hname.
  destruct (has_velocities_col d name Hvel Hname) as (xs & _ & Hcol & Hlen).
  exists xs. split; [done|]. split; [done|]. intros m.
  by rewrite col_select, values_keep, Hcol.
Qed.

Ltac selected Hvel name xs Hcol Hlen Hval :=
  destruct (selected_velocities _ name Hvel ltac:(derived_member))
    as (xs & Hcol & Hlen & Hval).

(** What the rows kept by each stream's mask satisfy. *)
Lemma nyx_mask_sound d :
  has_velocities d ->
  Forall (fun x => PrimFloat.ltb 100 x = true)
         (values (col (select (nyx_mask d) d) "V_phi")) /\
  Forall (fun x => PrimFloat.ltb 100 x = true /\ PrimFloat.ltb x 200 = true)
         (values (col (select (nyx_mask d) d) "V_R")).
Proof.
  intros Hvel.
  selected Hvel "V_phi" xphi Cphi Nphi Vphi.
  selected Hvel "V_R" xr Cr Nr Vr.
  rewrite (Vphi (nyx_mask d)), (Vr (nyx_mask d)).
  unfold nyx_mask. rewrite Cphi, Cr. unfold gt, lt. simpl values.
  split; apply keep_sound; intros i x Hm Hx;
    apply mask_and_true in Hm as [Hm H3]; apply mask_and_true in Hm as [H1 H2].
  - exact (test_true _ _ _ _ H1 Hx).
  - split.
    + exact (test_true _ _ _ _ H2 Hx).
    + exact (test_true _ _ _ _ H3 Hx).
Qed.

Lemma gse_mask_sound d :
  has_velocities d ->
  Forall (fun x => PrimFloat.ltb (PrimFloat.abs x) 50 = true)
         (values (col (select (gse_mask d) d) "V_phi")) /\
  Forall (fun x => PrimFloat.ltb 150 (PrimFloat.abs x) = true)
         (values (col (select (gse_mask d) d) "V_R")).
Proof.
  intros Hvel.
  selected Hvel "V_phi" xphi Cphi Nphi Vphi.
  selected Hvel "V_R" xr Cr Nr Vr.
  rewrite (Vphi (gse_mask d)), (Vr (gse_mask d)).
  unfold gse_mask. rewrite Cphi, Cr. unfold gt, lt, np_abs. simpl values.
  rewrite <- !list_fmap_compose.
  split; apply keep_sound; intros i x Hm Hx; apply mask_and_true in Hm as [H1 H2].
  - exact (test_true _ _ _ _ H1 Hx).
  - exact (test_true _ _ _ _ H2 Hx).
Qed.

Lemma helmi_mask_sound d :
  has_velocities d ->
  Forall (fun x => PrimFloat.ltb 150 x = true \/ PrimFloat.ltb x (-150) = true)
         (values (col (select (helmi_mask d) d) "V_z")).
Proof.
  intros Hvel.
  selected Hvel "V_z" xz Cz Nz Vz.
  rewrite (Vz (helmi_mask d)).
  unfold helmi_mask. rewrite Cz. unfold gt, lt. simpl values.
  apply keep_sound; intros i x Hm Hx. apply mask_or_true in Hm as [H1 | H2].
  - left. exact (test_true _ _ _ _ H1 Hx).
  - right. exact (test_true _ _ _ _ H2 Hx).
Qed.

Lemma sequoia_mask_sound d :
  has_velocities d ->
  Forall (fun x => PrimFloat.ltb x (-150) = true)
         (values (col (select (sequoia_mask d) d) "V_phi")).
Proof.
  intros Hvel.
  selected Hvel "V_phi" xphi Cphi Nphi Vphi.
  rewrite (Vphi (sequoia_mask d)).
  unfold sequoia_mask. rewrite Cphi. unfold lt. simpl values.
  apply keep_own_mask.
Qed.

Lemma halo_mask_sound retro d n :
  has_velocities d ->
  Forall (fun x => (if retro : bool then PrimFloat.ltb x (-50)
                    else PrimFloat.ltb (PrimFloat.abs x) 100 || PrimFloat.ltb x (-50))
                   = true)
         (values (col (head n (select (halo_mask retro (col d "V_phi")) d)) "V_phi")).
Proof.
  intros Hvel.
  selected Hvel "V_phi" xphi Cphi Nphi Vphi.
  rewrite col_head, values_take. apply Forall_take.
  rewrite (Vphi (halo_mask retro (col d "V_phi"))), Cphi.
  unfold halo_mask, lt, np_abs. simpl values. destruct retro.
  - apply keep_own_mask.
  - rewrite <- list_fmap_compose.
    apply keep_sound; intros i x Hm Hx. apply orb_true_iff.
    apply mask_or_true in Hm as [H1 | H2].
    + left. exact (test_true _ _ _ _ H1 Hx).
    + right. exact (test_true _ _ _ _ H2 Hx).
Qed.

(** ** What the searches return *)

Lemma search_stellar_stream_returns E stream_name limit w r w' :
  search_stellar_stream E stream_name limit w = (Ok r, w') ->
  exists criteria d0,
    _get_stream_criteria (lower E stream_name) = Some criteria /\
    launch_job E (stream_query E (or_default limit (default_results E))
                    (adql_filter criteria)) = inr d0 /\
    kinematic E d0 (table_of_result w' r)
      (fun d => select (stream_mask (lower E stream_name) d) d) /\
    row_count (results w' !!! r) = nrows (table_of_result w' r).
Proof.
  intros Hrun.
  pose proof (perform_outcome E (SearchStellarStream stream_name limit) w) as Hout.
  simpl perform in Hout. unfold request in Hout.
  destruct (_get_stream_criteria (lower E stream_name)) as [criteria|]; [|congruence].
  destruct (launch_job E _) as [msg|d0] eqn:Hjob; [congruence|].
  destruct Hout as (r1 & w1 & t & Hrun1 & Hholds & Hrc & Hret).
  rewrite Hrun in Hrun1. injection Hrun1 as <- <-.
  exists criteria, d0. unfold table_of_result. rewrite (holds_table _ _ _ _ _ Hholds).
  done.
Qed.

Lemma search_accreted_halo_returns E retrograde_only limit w r w' :
  search_accreted_halo E retrograde_only limit w = (Ok r, w') ->
  exists d0,
    launch_job E (accreted_halo_query E (or_default limit (default_results E) * 2)) = inr d0 /\
    kinematic E d0 (table_of_result w' r)
      (fun d => head (or_default limit (default_results E))
                  (select (halo_mask retrograde_only (col d "V_phi")) d)) /\
    row_count (results w' !!! r) = nrows (table_of_result w' r).
Proof.
  intros Hrun.
  pose proof (perform_outcome E (SearchAccretedHalo retrograde_only limit) w) as Hout.
  simpl perform in Hout. unfold request in Hout.
  destruct (launch_job E _) as [msg|d0] eqn:Hjob; [congruence|].
  destruct Hout as (r1 & w1 & t & Hrun1 & Hholds & Hrc & Hret).
  rewrite Hrun in Hrun1. injection Hrun1 as <- <-.
  exists d0. unfold table_of_result. rewrite (holds_table _ _ _ _ _ Hholds). done.
Qed.

Lemma stream_mask_key key d :
  (key = "nyx" -> stream_mask key d = nyx_mask d) /\
  (key = "gse" \/ key = "gaia-sausage-enceladus" -> stream_mask key d = gse_mask d) /\
  (key = "helmi" -> stream_mask key d = helmi_mask d) /\
  (key = "sequoia" -> stream_mask key d = sequoia_mask d).
Proof.
  repeat split; intros H; try destruct H as [H|H]; subst key; reflexivity.
Qed.

(** Property X9.  Every row [search_stellar_stream] returns passes
    the velocity cut of its stream.  Nyx: [V_phi > 100] and
    [100 < V_R < 200].  GSE, under either name: [|V_phi| < 50] and
    [|V_R| > 150].  Helmi: [V_z > 150] or [V_z < -150].  Sequoia:
    [V_phi < -150]. *)
Theorem stream_rows_pass_the_velocity_cut E stream_name limit w r w' :
  archive_well_formed E ->
  search_stellar_stream E stream_name limit w = (Ok r, w') ->
  let v_r := values (col (table_of_result w' r) "V_R") in
  let v_phi := values (col (table_of_result w' r) "V_phi") in
  let v_z := values (col (table_of_result w' r) "V_z") in
  (lower E stream_name = "nyx" ->
     Forall (fun x => PrimFloat.ltb 100 x = true) v_phi /\
     Forall (fun x => PrimFloat.ltb 100 x = true /\ PrimFloat.ltb x 200 = true) v_r) /\
  (lower E stream_name = "gse" \/ lower E stream_name = "gaia-sausage-enceladus" ->
     Forall (fun x => PrimFloat.ltb (PrimFloat.abs x) 50 = true) v_phi /\
     Forall (fun x => PrimFloat.ltb 150 (PrimFloat.abs x) = true) v_r) /\
  (lower E stream_name = "helmi" ->
     Forall (fun x => PrimFloat.ltb 150 x = true \/ PrimFloat.ltb x (-150) = true) v_z) /\
  (lower E stream_name = "sequoia" ->
     Forall (fun x => PrimFloat.ltb x (-150) = true) v_phi).
Proof.
  intros Hwf Hrun. cbv zeta.
  destruct (search_stellar_stream_returns _ _ _ _ _ _ Hrun)
    as (criteria & d0 & _ & Hjob & Hret & _).
  destruct Hret as [[Hz ->] | (_ & d' & _ & Hvel & _ & ->)].
  - rewrite !well_formed_col by (by eapply Hwf || done).
    repeat split; constructor.
  - destruct (stream_mask_key (lower E stream_name) d') as (Knyx & Kgse & Khelmi & Kseq).
    split; [|split; [|split]]; intros Hkey.
    + rewrite (Knyx Hkey). by apply nyx_mask_sound.
    + rewrite (Kgse Hkey). by apply gse_mask_sound.
    + rewrite (Khelmi Hkey). by apply helmi_mask_sound.
    + rewrite (Kseq Hkey). by apply sequoia_mask_sound.
Qed.

Lemma stream_rows_pass_the_velocity_cut_witness :
  let E := mock_env (inr (table_of [star_a; star_fast])) in
  let w' := (search_stellar_stream E "GSE" None boot).2 in
  let v_r := values (col (table_of_result w' 0) "V_R") in
  let v_phi := values (col (table_of_result w' 0) "V_phi") in
  let v_z := values (col (table_of_result w' 0) "V_z") in
  archive_well_formed E /\
  search_stellar_stream E "GSE" None boot = (Ok 0, w') /\
  (lower E "GSE" = "nyx" ->
     Forall (fun x => PrimFloat.ltb 100 x = true) v_phi /\
     Forall (fun x => PrimFloat.ltb 100 x = true /\ PrimFloat.ltb x 200 = true) v_r) /\
  (lower E "GSE" = "gse" \/ lower E "GSE" = "gaia-sausage-enceladus" ->
     Forall (fun x => PrimFloat.ltb (PrimFloat.abs x) 50 = true) v_phi /\
     Forall (fun x => PrimFloat.ltb 150 (PrimFloat.abs x) = true) v_r) /\
  (lower E "GSE" = "helmi" ->
     Forall (fun x => PrimFloat.ltb 150 x = true \/ PrimFloat.ltb x (-150) = true) v_z) /\
  (lower E "GSE" = "sequoia" ->
     Forall (fun x => PrimFloat.ltb x (-150) = true) v_phi).
Proof.
  intros E w' v_r v_phi v_z.
  assert (H1 : archive_well_formed E) by (intros q d [= <-]; reflexivity).
  assert (H2 : search_stellar_stream E "GSE" None boot = (Ok 0, w'))
    by (vm_compute; reflexivity).
  split; [exact H1|]. split; [exact H2|].
  exact (stream_rows_pass_the_velocity_cut E "GSE" None boot 0 w' H1 H2).
Defined.

(** ** Selecting twice *)

Lemma col_keep_all_true m c :
  Forall (fun b => b = true) m -> length (values c) <= length m -> col_keep m c = c.
Proof.
  intros Hall Hlen. destruct c; simpl in *; f_equal; apply keep_all_true; try done.
  by rewrite length_fmap in Hlen.
Qed.

(** A mask that is true everywhere and covers the table selects all of it. *)
Lemma select_all_true m d :
  Forall (fun b => b = true) m ->
  nrows d <= length m ->
  Forall (fun kc => length (values kc.2) <= length m) (columns d) ->
  select m d = d.
Proof.
  intros Hall Hn Hcols. destruct d as [n cs]. unfold select. simpl in *. f_equal.
  - rewrite keep_all_true; [apply length_replicate | done | by rewrite length_replicate].
  - induction Hcols as [|[k c] cs Hc Hcs IH]; [done|].
    rewrite fmap_cons, IH. unfold prod_map at 1. simpl.
    by rewrite col_keep_all_true.
Qed.

Lemma keep_count {A} m (xs : list A) :
  length xs = length m ->
  length (keep m xs) = length (keep m (replicate (length m) tt)).
Proof.
  revert xs. induction m as [|b m IH]; intros [|x xs]; simpl; try done.
  intros [= Hlen]. destruct b; simpl; by rewrite IH.
Qed.

Lemma select_columns_fit m d :
  length m = nrows d ->
  Forall (fun kc => length (values kc.2) <= nrows (select m d)) (columns (select m d)).
Proof.
  intros Hlen. simpl. rewrite <- Hlen. apply Forall_fmap, Forall_forall.
  intros [k c] _. simpl. rewrite values_keep. apply keep_length_le.
Qed.

(** The velocity columns of a selection by a mask as long as the table. *)
Lemma selected_column d m name :
  has_velocities d -> name ∈ derived_columns -> length m = nrows d ->
  exists xs,
    col d name = FloatCol xs /\
    col (select m d) name = FloatCol (keep m xs) /\
    length (keep m xs) = nrows (select m d).
Proof.
  intros Hvel Hname Hlen.
  destruct (has_velocities_col d name Hvel Hname) as (xs & _ & Hcol & Hxs).
  exists xs. split; [done|]. split; [by rewrite col_select, Hcol|].
  simpl. rewrite <- Hlen. apply keep_count. congruence.
Qed.

Lemma all_true_fmap (p : float -> bool) xs :
  Forall (fun x => p x = true) xs -> Forall (fun b => b = true) (p <$> xs).
Proof. intros H. apply Forall_fmap. by eapply Forall_impl. Qed.

Lemma all_true_and m1 m2 :
  Forall (fun b => b = true) m1 -> Forall (fun b => b = true) m2 ->
  Forall (fun b => b = true) (mask_and m1 m2).
Proof.
  unfold mask_and. intros H1. revert m2. induction H1 as [|b m1 -> H1 IH]; intros m2 H2.
  - done.
  - destruct H2 as [|b2 m2 -> H2]; simpl; [done|]. constructor; [done | by apply IH].
Qed.

Lemma stream_mask_length key d :
  has_velocities d -> length (stream_mask key d) = nrows d.
Proof.
  intros Hvel.
  destruct (has_velocities_col d "V_phi" Hvel ltac:(derived_member)) as (xphi & _ & Cphi & Nphi).
  destruct (has_velocities_col d "V_R" Hvel ltac:(derived_member)) as (xr & _ & Cr & Nr).
  destruct (has_velocities_col d "V_z" Hvel ltac:(derived_member)) as (xz & _ & Cz & Nz).
  unfold stream_mask, nyx_mask, gse_mask, helmi_mask, sequoia_mask.
  rewrite Cphi, Cr, Cz. unfold mask_and, mask_or, gt, lt, np_abs. simpl values.
  repeat destruct (String.eqb key _);
    rewrite ?length_zip_with, ?length_fmap; lia.
Qed.

Lemma select_has_velocities m d :
  has_velocities d -> length m = nrows d -> has_velocities (select m d).
Proof.
  intros Hvel Hlen name Hname.
  destruct (selected_column d m name Hvel Hname Hlen) as (xs & Hcol & Hsel & Hn).
  destruct (has_velocities_col d name Hvel Hname) as (xs' & Hlook & Hcol' & _).
  assert (xs' = xs) as -> by congruence.
  exists (keep m xs). split; [|done].
  simpl columns. rewrite col_lookup_fmap, Hlook. done.
Qed.

Lemma Forall_and_l {A} (P Q : A -> Prop) xs : Forall (fun x => P x /\ Q x) xs -> Forall P xs.
Proof. intros H. eapply Forall_impl; [exact H|]. simpl. tauto. Qed.

Lemma Forall_and_r {A} (P Q : A -> Prop) xs : Forall (fun x => P x /\ Q x) xs -> Forall Q xs.
Proof. intros H. eapply Forall_impl; [exact H|]. simpl. tauto. Qed.

(** On its own selection, each stream mask is true everywhere and as long
    as the selection. *)
Lemma stream_mask_again key d :
  has_velocities d ->
  let t := select (stream_mask key d) d in
  Forall (fun b => b = true) (stream_mask key t) /\
  length (stream_mask key t) = nrows t.
Proof.
  intros Hvel t.
  assert (Hlen : length (stream_mask key d) = nrows d) by by apply stream_mask_length.
  split; [|apply stream_mask_length; by apply select_has_velocities].
  subst t. unfold stream_mask.
  repeat destruct (String.eqb key _).
  - destruct (nyx_mask_sound d Hvel) as [Hphi Hr].
    unfold nyx_mask at 1. unfold gt, lt.
    repeat apply all_true_and; apply all_true_fmap; try done.
    + exact (Forall_and_l _ _ _ Hr).
    + exact (Forall_and_r _ _ _ Hr).
  - destruct (gse_mask_sound d Hvel) as [Hphi Hr].
    destruct (selected_column d (gse_mask d) "V_phi" Hvel ltac:(derived_member))
      as (xphi & _ & Cphi & _); [by apply (stream_mask_length "gse")|].
    destruct (selected_column d (gse_mask d) "V_R" Hvel ltac:(derived_member))
      as (xr & _ & Cr & _); [by apply (stream_mask_length "gse")|].
    unfold gse_mask at 1. rewrite Cphi, Cr in *. unfold gt, lt, np_abs. simpl values in *.
    rewrite <- !list_fmap_compose.
    apply all_true_and; apply all_true_fmap; done.
  - destruct (gse_mask_sound d Hvel) as [Hphi Hr].
    destruct (selected_column d (gse_mask d) "V_phi" Hvel ltac:(derived_member))
      as (xphi & _ & Cphi & _); [by apply (stream_mask_length "gse")|].
    destruct (selected_column d (gse_mask d) "V_R" Hvel ltac:(derived_member))
      as (xr & _ & Cr & _); [by apply (stream_mask_length "gse")|].
    unfold gse_mask at 1. rewrite Cphi, Cr in *. unfold gt, lt, np_abs. simpl values in *.
    rewrite <- !list_fmap_compose.
    apply all_true_and; apply all_true_fmap; done.
  - pose proof (helmi_mask_sound d Hvel) as Hz.
    unfold helmi_mask at 1. unfold mask_or, gt, lt.
    rewrite zip_with_fmap_l, zip_with_fmap_r, zip_with_diag.
    apply Forall_fmap. eapply Forall_impl; [exact Hz|].
    intros x [H|H]; simpl; rewrite H; [done | by rewrite orb_true_r].
  - pose proof (sequoia_mask_sound d Hvel) as Hphi.
    unfold sequoia_mask at 1. unfold lt. by apply all_true_fmap.
Qed.

(** Selecting again with the same stream mask changes nothing. *)
Lemma stream_select_twice key d :
  has_velocities d ->
  let t := select (stream_mask key d) d in
  select (stream_mask key t) t = t.
Proof.
  intros Hvel t. destruct (stream_mask_again key d Hvel) as [Hall Hlen].
  fold t in Hall, Hlen. apply select_all_true; [done | lia |].
  rewrite Hlen. apply select_columns_fit. by apply stream_mask_length.
Qed.

Lemma select_empty m d : well_formed d = true -> nrows d = 0 -> select m d = d.
Proof.
  intros Hwf Hz. destruct d as [n cs]. unfold select, well_formed in *. simpl in *.
  subst n. simpl. rewrite keep_nil. simpl. f_equal.
  induction cs as [|[k c] cs IH]; [done|]. simpl in Hwf.
  apply andb_true_iff in Hwf as [Hc Hcs]. rewrite fmap_cons, IH by done.
  unfold prod_map at 1. simpl. f_equal. f_equal.
  apply Nat.eqb_eq in Hc. destruct c as [xs|xs]; simpl in *.
  - rewrite length_fmap in Hc. apply nil_length_inv in Hc. subst xs. by rewrite keep_nil.
  - apply nil_length_inv in Hc. subst xs. by rewrite keep_nil.
Qed.

(** Whatever table a velocity filter is given, what it returns is a
    selection of that table. *)
Lemma stream_filter_selects key c :
  _get_stream_criteria key = Some c ->
  exists f,
    velocity_filter c = Some f /\
    forall a w a2 w2,
      f a w = (Ok a2, w2) ->
      exists m, frames w2 !!! a2 = select m (frames w !!! a).
Proof.
  unfold _get_stream_criteria, streams. cbn [dict_get].
  repeat (destruct (String.eqb _ key); [intros [= <-]; eexists; split; [reflexivity|] |]);
    [ .. | done ];
    intros a w a2 w2;
    unfold nyx_filter, gse_filter, helmi_filter, sequoia_filter;
    repeat (rewrite bind_run, getitem_run; destruct (col_lookup _ _); [|done]);
    rewrite getitem_mask_run; intros [= <- <-]; eexists; simpl; by rewrite lookup_last.
Qed.

(** Property X10.  The velocity filter of a stream, run once more on
    the table [search_stellar_stream] returned, gives, whenever it returns,
    a table equal to the one it was given: the selection is idempotent. *)
Theorem stream_selection_is_idempotent E stream_name limit w r w' criteria f a2 w2 :
  archive_well_formed E ->
  search_stellar_stream E stream_name limit w = (Ok r, w') ->
  _get_stream_criteria (lower E stream_name) = Some criteria ->
  velocity_filter criteria = Some f ->
  f (data (results w' !!! r)) w' = (Ok a2, w2) ->
  frames w2 !!! a2 = table_of_result w' r.
Proof.
  intros Hwf Hrun Hkey Hf Hagain.
  destruct (search_stellar_stream_returns _ _ _ _ _ _ Hrun)
    as (criteria' & d0 & Hkey' & Hjob & Hret & _).
  unfold table_of_result in *.
  destruct Hret as [[Hz Ht] | (_ & d' & _ & Hvel & _ & Ht)].
  - destruct (stream_filter_selects _ _ Hkey) as (f' & Hf' & Hsel).
    assert (f' = f) as -> by congruence.
    destruct (Hsel _ _ _ _ Hagain) as (m & ->). rewrite Ht.
    apply select_empty; [by eapply Hwf | done].
  - destruct (stream_filter_run _ _ Hkey) as (f' & Hf' & Hfrun).
    assert (f' = f) as -> by congruence.
    rewrite Hfrun in Hagain.
    2:{ rewrite Ht. apply select_has_velocities; [done|]. by apply stream_mask_length. }
    injection Hagain as <- <-. simpl. rewrite lookup_last, Ht.
    by apply stream_select_twice.
Qed.

Lemma stream_selection_is_idempotent_witness :
  let E := mock_env (inr (table_of [star_a; star_fast])) in
  let w' := (search_stellar_stream E "GSE" None boot).2 in
  let criteria :=
    {| adql_filter := "";
       criteria_description :=
         "Gaia-Sausage-Enceladus candidates - major merger remnant "
           +:+ "with highly radial orbits";
       velocity_filter := Some gse_filter |} in
  let w2 := (gse_filter (data (results w' !!! 0)) w').2 in
  archive_well_formed E /\
  search_stellar_stream E "GSE" None boot = (Ok 0, w') /\
  _get_stream_criteria (lower E "GSE") = Some criteria /\
  velocity_filter criteria = Some gse_filter /\
  gse_filter (data (results w' !!! 0)) w' = (Ok 3, w2) /\
  frames w2 !!! 3 = table_of_result w' 0.
Proof.
  intros E w' criteria w2.
  assert (H1 : archive_well_formed E) by (intros q d [= <-]; reflexivity).
  assert (H2 : search_stellar_stream E "GSE" None boot = (Ok 0, w'))
    by (vm_compute; reflexivity).
  assert (H3 : _get_stream_criteria (lower E "GSE") = Some criteria) by reflexivity.
  assert (H4 : velocity_filter criteria = Some gse_filter) by reflexivity.
  assert (H5 : gse_filter (data (results w' !!! 0)) w' = (Ok 3, w2))
    by (vm_compute; reflexivity).
  split; [exact H1|]. split; [exact H2|]. split; [exact H3|]. split; [exact H4|].
  split; [exact H5|].
  exact (stream_selection_is_idempotent E "GSE" None boot 0 w' criteria gse_filter 3 w2
           H1 H2 H3 H4 H5).
Defined.

(** ** Names, checks and limits *)

Lemma supported_key s :
  s ∈ supported_streams -> exists criteria, _get_stream_criteria (ascii_lower s) = Some criteria.
Proof.
  unfold supported_streams. intros Hs.
  repeat (apply elem_of_cons in Hs as [-> | Hs]; [by eexists|]).
  by apply elem_of_nil in Hs.
Qed.

(** Property X11.  A name that matches one of Nyx, GSE,
    Gaia-Sausage-Enceladus, Helmi, Sequoia when case is ignored (its
    [str.lower] is the lower case of the listed name) is never rejected:
    [search_stellar_stream] sends the query of that stream, and the only
    exception it can raise is the [RuntimeError] of a failed archive
    query. *)
Theorem supported_stream_is_searched E name s limit w :
  s ∈ supported_streams ->
  lower E name = ascii_lower s ->
  exists criteria,
    _get_stream_criteria (lower E name) = Some criteria /\
    launched (search_stellar_stream E name limit w).2
    = (launched w
         ++ [stream_query E (or_default limit (default_results E)) (adql_filter criteria)])%list /\
    (forall e, (search_stellar_stream E name limit w).1 = Raise e ->
               exists msg, e = RuntimeError ("ADQL query failed: " +:+ msg)).
Proof.
  intros Hs Hname. destruct (supported_key s Hs) as (criteria & Hkey).
  rewrite <- Hname in Hkey. exists criteria. split; [done|].
  pose proof (perform_outcome E (SearchStellarStream name limit) w) as Hout.
  simpl perform in Hout. unfold request in Hout. rewrite Hkey in Hout.
  destruct (launch_job E _) as [msg|d0].
  - rewrite Hout. simpl. split; [done|]. intros e [= <-]. by exists msg.
  - destruct Hout as (r & w' & t & -> & Hholds & _). simpl.
    split; [apply Hholds | done].
Qed.

Lemma supported_stream_is_searched_witness :
  let E := mock_env (inl "offline") in
  "Sequoia" ∈ supported_streams /\
  lower E "SEQUOIA" = ascii_lower "Sequoia" /\
  exists criteria,
    _get_stream_criteria (lower E "SEQUOIA") = Some criteria /\
    launched (search_stellar_stream E "SEQUOIA" None boot).2
    = (launched boot
         ++ [stream_query E (or_default None (default_results E)) (adql_filter criteria)])%list /\
    (forall e, (search_stellar_stream E "SEQUOIA" None boot).1 = Raise e ->
               exists msg, e = RuntimeError ("ADQL query failed: " +:+ msg)).
Proof.
  intros E.
  assert (H1 : "Sequoia" ∈ supported_streams)
    by (unfold supported_streams; repeat constructor).
  assert (H2 : lower E "SEQUOIA" = ascii_lower "Sequoia") by reflexivity.
  split; [exact H1|]. split; [exact H2|].
  exact (supported_stream_is_searched E "SEQUOIA" "Sequoia" None boot H1 H2).
Defined.

(** Property X12.  GSE and Gaia-Sausage-Enceladus, in any letter
    case, are one search: same query, same result, same state. *)
Theorem gse_names_are_interchangeable E short long limit w :
  lower E short = "gse" ->
  lower E long = "gaia-sausage-enceladus" ->
  search_stellar_stream E short limit w = search_stellar_stream E long limit w.
Proof.
  intros Hshort Hlong. unfold search_stellar_stream. cbv zeta.
  rewrite Hshort, Hlong. reflexivity.
Qed.

Lemma gse_names_are_interchangeable_witness :
  let E := mock_env (inr (table_of [star_a; star_fast])) in
  lower E "GSE" = "gse" /\
  lower E "Gaia-Sausage-Enceladus" = "gaia-sausage-enceladus" /\
  search_stellar_stream E "GSE" None boot
  = search_stellar_stream E "Gaia-Sausage-Enceladus" None boot.
Proof.
  intros E.
  assert (H1 : lower E "GSE" = "gse") by reflexivity.
  assert (H2 : lower E "Gaia-Sausage-Enceladus" = "gaia-sausage-enceladus") by reflexivity.
  split; [exact H1|]. split; [exact H2|].
  exact (gse_names_are_interchangeable E "GSE" "Gaia-Sausage-Enceladus" None boot H1 H2).
Defined.

(** Property X13.  [search_hypervelocity_stars] with a distance of
    zero raises at the division and leaves the state unchanged.  With any
    other distance, NaN and the infinities included, exactly one query goes
    to the archive; it asks for [limit or min(500, default)] rows with a
    parallax above [1.0 / distance_kpc] and a proper motion above 20. *)
Theorem hypervelocity_query_is_sent_unless_distance_is_zero
    E distance_kpc min_velocity_kms limit w :
  let run := search_hypervelocity_stars E distance_kpc min_velocity_kms limit w in
  if PrimFloat.eqb distance_kpc 0
  then run = (Raise (ZeroDivisionError "float division by zero"), w)
  else launched run.2
       = (launched w
            ++ [hypervelocity_query E (or_default limit (Z.min 500 (default_results E)))
                  (1 / distance_kpc)%float 20])%list.
Proof.
  cbv zeta.
  pose proof (perform_outcome E (SearchHypervelocityStars distance_kpc min_velocity_kms limit) w)
    as Hout.
  simpl perform in Hout. unfold request in Hout.
  destruct (PrimFloat.eqb distance_kpc 0); [done|].
  destruct (launch_job E _) as [msg|d0].
  - by rewrite Hout.
  - destruct Hout as (r & w' & t & -> & Hholds & _). apply Hholds.
Qed.

(** Property X14.  For a limit that is not negative, the result of
    [search_accreted_halo] holds at most [limit] rows, although its query
    asks the archive for twice as many; [row_count] is the length of the
    table returned. *)
Theorem halo_result_is_within_the_limit E retrograde_only limit w r w' :
  search_accreted_halo E retrograde_only limit w = (Ok r, w') ->
  (0 <= or_default limit (default_results E))%Z ->
  (Z.of_nat (row_count (results w' !!! r)) <= or_default limit (default_results E))%Z /\
  row_count (results w' !!! r) = nrows (table_of_result w' r).
Proof.
  intros Hrun HL.
  destruct (search_accreted_halo_returns _ _ _ _ _ _ Hrun) as (d0 & Hjob & Hret & Hrc).
  split; [|done]. rewrite Hrc.
  destruct Hret as [[Hz ->] | (_ & d' & _ & Hvel & _ & ->)]; [lia|].
  by apply head_count_cap.
Qed.

Lemma halo_result_is_within_the_limit_witness :
  let E := mock_env (inr (table_of [star_a; star_retrograde; star_fast])) in
  let w' := (search_accreted_halo E false (Some 2%Z) boot).2 in
  search_accreted_halo E false (Some 2%Z) boot = (Ok 0, w') /\
  (0 <= or_default (Some 2%Z) (default_results E))%Z /\
  (Z.of_nat (row_count (results w' !!! 0%nat)) <= or_default (Some 2%Z) (default_results E))%Z /\
  row_count (results w' !!! 0) = nrows (table_of_result w' 0).
Proof.
  intros E w'.
  assert (H1 : search_accreted_halo E false (Some 2%Z) boot = (Ok 0, w'))
    by (vm_compute; reflexivity).
  assert (H2 : (0 <= or_default (Some 2%Z) (default_results E))%Z) by (simpl; lia).
  split; [exact H1|]. split; [exact H2|].
  exact (halo_result_is_within_the_limit E false (Some 2%Z) boot 0 w' H1 H2).
Defined.

(** Property X15.  Every row [search_accreted_halo] returns has
    [V_phi < -50] under [retrograde_only], and otherwise [|V_phi| < 100] or
    [V_phi < -50]. *)
Theorem halo_rows_pass_the_cut E retrograde_only limit w r w' :
  archive_well_formed E ->
  search_accreted_halo E retrograde_only limit w = (Ok r, w') ->
  Forall (fun x => (if retrograde_only then PrimFloat.ltb x (-50)
                    else PrimFloat.ltb (PrimFloat.abs x) 100 || PrimFloat.ltb x (-50))
                   = true)
         (values (col (table_of_result w' r) "V_phi")).
Proof.
  intros Hwf Hrun.
  destruct (search_accreted_halo_returns _ _ _ _ _ _ Hrun) as (d0 & Hjob & Hret & _).
  destruct Hret as [[Hz ->] | (_ & d' & _ & Hvel & _ & ->)].
  - rewrite well_formed_col by (by eapply Hwf || done). constructor.
  - by apply halo_mask_sound.
Qed.

Lemma halo_rows_pass_the_cut_witness :
  let E := mock_env (inr (table_of [star_a; star_retrograde; star_fast])) in
  let w' := (search_accreted_halo E true None boot).2 in
  archive_well_formed E /\
  search_accreted_halo E true None boot = (Ok 0, w') /\
  Forall (fun x => PrimFloat.ltb x (-50) = true)
         (values (col (table_of_result w' 0) "V_phi")).
Proof.
  intros E w'.
  assert (H1 : archive_well_formed E) by (intros q d [= <-]; reflexivity).
  assert (H2 : search_accreted_halo E true None boot = (Ok 0, w'))
    by (vm_compute; reflexivity).
  split; [exact H1|]. split; [exact H2|].
  exact (halo_rows_pass_the_cut E true None boot 0 w' H1 H2).
Defined.

(** ** The query builder *)

Lemma append_assoc (a b c : string) : (a +:+ b) +:+ c = a +:+ (b +:+ c).
Proof.
  induction a as [|x a IH]; [done|].
  change (String x ((a +:+ b) +:+ c) = String x (a +:+ (b +:+ c))). by rewrite IH.
Qed.

Lemma join_cons sep x y rest :
  join sep (x :: y :: rest) = join sep ((x +:+ sep +:+ y) :: rest).
Proof.
  destruct rest as [|z rest]; [done|].
  change (join sep (x :: y :: z :: rest)) with (x +:+ sep +:+ y +:+ sep +:+ join sep (z :: rest)).
  change (join sep ((x +:+ sep +:+ y) :: z :: rest))
    with ((x +:+ sep +:+ y) +:+ sep +:+ join sep (z :: rest)).
  by rewrite !append_assoc.
Qed.

(** Property X16.  [build_custom_adql] joins its conditions with
    AND and adds no parentheses: the conditions [x], [y], ... give the same
    text as the single leading condition [x AND y] followed by the rest, so
    the query does not keep how the conditions were grouped. *)
Theorem conditions_are_joined_without_grouping E columns x y conditions limit order_by :
  build_custom_adql E columns (x :: y :: conditions) limit order_by
  = build_custom_adql E columns ((x +:+ " AND " +:+ y) :: conditions) limit order_by.
Proof. unfold build_custom_adql. cbv zeta. by rewrite join_cons. Qed.

(** Property X17.  A limit of 0 is read as no limit ([limit or
    default]): each operation that takes a limit behaves with [limit=0]
    exactly as with [limit=None].  So does [build_custom_adql], which also
    reads an empty [order_by] as none. *)
Theorem zero_limit_reads_as_no_limit E c w columns conditions :
  perform E (with_limit (Some 0%Z) c) w = perform E (with_limit None c) w /\
  build_custom_adql E columns conditions (Some 0%Z) (Some "")
  = build_custom_adql E columns conditions None None.
Proof. split; [by destruct c | done]. Qed.
